(** * Convolution layer of syft.core.tensor.nn.layers.convolution

    A shallow embedding of [Convolution] (connect_to, forward, backward,
    params, grads) over a small executable model of the n-dimensional
    arrays the layer computes with. *)

From Stdlib Require Import ZArith List Lia Bool.
Import ListNotations.
Open Scope Z_scope.

(** ** Python exceptions and fallible results *)

(** The built-in exceptions the layer can raise.  numpy's AxisError is a
    subclass of ValueError and is recorded as such. *)
Inductive exn : Type :=
| AssertionError
| AttributeError
| NotImplementedError
| TypeError
| ValueError
| ZeroDivisionError.

(** [inl e]: the call raised [e]; [inr x]: it returned [x]. *)
Definition result (X : Type) : Type := (exn + X)%type.

Definition rbind {X Y : Type} (r : result X) (k : X -> result Y) : result Y :=
  match r with
  | inl e => inl e
  | inr x => k x
  end.

(** ** Elements

    An element of a bounded tensor bundles a value with its lower and upper
    bound and its data subject; the three move in lock-step.  Arithmetic on
    elements is what the tensor kernel provides; the layer only composes
    it.  A plain numpy array is an array of elements with no data
    subject. *)
Class Element (A DS : Type) : Type := {
  zero : A;
  add : A -> A -> A;
  mul : A -> A -> A;
  no_subject : DS;
  subject : A -> DS;
  with_subject : DS -> A -> A
}.

(** ** N-dimensional arrays, row-major *)

Record ndarray (A : Type) : Type := mk_ndarray {
  shape : list Z;
  data : list A
}.
Arguments mk_ndarray {A} _ _.
Arguments shape {A} _.
Arguments data {A} _.

(** Number of elements of a shape. *)
Definition size (sh : list Z) : Z := fold_right Z.mul 1 sh.

(** Multi-index of the flat position [i] in an array of shape [sh]. *)
Fixpoint unravel (sh : list Z) (i : Z) : list Z :=
  match sh with
  | [] => []
  | _ :: rest => i / size rest :: unravel rest (i mod size rest)
  end.

Fixpoint ravel_from (acc : Z) (sh idx : list Z) : Z :=
  match sh, idx with
  | d :: sh', k :: idx' => ravel_from (acc * d + k) sh' idx'
  | _, _ => acc
  end.

(** Flat position of the multi-index [idx] in an array of shape [sh]. *)
Definition ravel (sh idx : list Z) : Z := ravel_from 0 sh idx.

Definition range (n : Z) : list Z :=
  map Z.of_nat (seq 0 (Z.to_nat n)).

Definition tabulate {A : Type} (n : Z) (f : Z -> A) : list A :=
  map f (range n).

Definition zlength {X : Type} (l : list X) : Z := Z.of_nat (length l).

Definition znth (l : list Z) (k : Z) : Z := nth (Z.to_nat k) l 0.

Fixpoint idx_eqb (i j : list Z) : bool :=
  match i, j with
  | [], [] => true
  | a :: i', b :: j' => (a =? b) && idx_eqb i' j'
  | _, _ => false
  end.

Fixpoint mem (k : Z) (l : list Z) : bool :=
  match l with
  | [] => false
  | a :: l' => (a =? k) || mem k l'
  end.

Fixpoint nodupb (l : list Z) : bool :=
  match l with
  | [] => true
  | a :: l' => negb (mem a l') && nodupb l'
  end.

(** Position of the first occurrence of [k] in [l]. *)
Fixpoint index_of (k : Z) (l : list Z) : Z :=
  match l with
  | [] => 0
  | a :: l' => if a =? k then 0 else 1 + index_of k l'
  end.

(** Tuple unpacking [a, b, c, d = t]: ValueError unless [t] has four items. *)
Definition unpack4 (t : list Z) : result (Z * Z * Z * Z) :=
  match t with
  | [a; b; c; d] => inr (a, b, c, d)
  | _ => inl ValueError
  end.

(** Tuple unpacking [a, b = t]. *)
Definition unpack2 (t : list Z) : result (Z * Z) :=
  match t with
  | [a; b] => inr (a, b)
  | _ => inl ValueError
  end.

(** numpy's resolution of a requested shape against the number of elements:
    every negative entry is an unknown dimension, at most one is allowed;
    it is inferred when the known entries divide the element count. *)
Definition fix_unknown_dimension (newshape : list Z) (s_original : Z)
  : result (list Z) :=
  let unknown := filter (fun d => d <? 0) newshape in
  let s_known := size (filter (fun d => 0 <=? d) newshape) in
  match unknown with
  | [] => if s_original =? s_known then inr newshape else inl ValueError
  | [_] =>
      if (s_known =? 0) || negb (s_original mod s_known =? 0)
      then inl ValueError
      else inr (map (fun d => if d <? 0 then s_original / s_known else d)
                    newshape)
  | _ => inl ValueError
  end.

(** Broadcasting of two shapes, aligned on their last axes. *)
Fixpoint broadcast_rev (r1 r2 : list Z) : result (list Z) :=
  match r1, r2 with
  | [], r => inr r
  | r, [] => inr r
  | d1 :: t1, d2 :: t2 =>
      match broadcast_rev t1 t2 with
      | inl e => inl e
      | inr t =>
          if d1 =? d2 then inr (d1 :: t)
          else if d1 =? 1 then inr (d2 :: t)
          else if d2 =? 1 then inr (d1 :: t)
          else inl ValueError
      end
  end.

Definition broadcast_shapes (s1 s2 : list Z) : result (list Z) :=
  match broadcast_rev (rev s1) (rev s2) with
  | inl e => inl e
  | inr r => inr (rev r)
  end.

(** Index read in an operand of shape [sh] for the output index [oi]. *)
Definition broadcast_index (sh oi : list Z) : list Z :=
  map (fun dk => if fst dk =? 1 then 0 else snd dk)
      (combine sh (skipn (length oi - length sh) oi)).

(** Axes as numpy normalises them: a negative axis counts from the end. *)
Definition normalize_axis (ndim ax : Z) : Z :=
  if ax <? 0 then ax + ndim else ax.

Definition axes_ok (ndim : Z) (axes : list Z) : bool :=
  forallb (fun ax => (0 <=? ax) && (ax <? ndim)) axes && nodupb axes.

Section Arrays.
Context {A DS : Type} `{Element A DS}.

Definition item (a : ndarray A) (i : Z) : A :=
  if i <? 0 then zero else nth (Z.to_nat i) (data a) zero.

Definition total (l : list A) : A := fold_left add l zero.

(** [a.reshape(newshape)] *)
Definition reshape (a : ndarray A) (newshape : list Z) : result (ndarray A) :=
  rbind (fix_unknown_dimension newshape (size (shape a)))
        (fun sh => inr (mk_ndarray sh (data a))).

(** [a.transpose(axes)] *)
Definition transpose (a : ndarray A) (axes : list Z) : result (ndarray A) :=
  let ndim := zlength (shape a) in
  let axes' := map (normalize_axis ndim) axes in
  if (zlength axes =? ndim) && axes_ok ndim axes' then
    let osh := map (znth (shape a)) axes' in
    inr (mk_ndarray osh
           (tabulate (size osh) (fun o =>
              let oi := unravel osh o in
              let ii := map (fun ax => znth oi (index_of ax axes')) (range ndim) in
              item a (ravel (shape a) ii))))
  else inl ValueError.

(** [a.T]: all axes reversed. *)
Definition T (a : ndarray A) : ndarray A :=
  let sh := shape a in
  let osh := rev sh in
  mk_ndarray osh
    (tabulate (size osh) (fun o => item a (ravel sh (rev (unravel osh o))))).

(** [a @ b] for two matrices, the only operands the layer multiplies
    (patch matrices and explicitly two-dimensional reshapes). *)
Definition matmul (a b : ndarray A) : result (ndarray A) :=
  match shape a, shape b with
  | [m; k], [k'; n] =>
      if k =? k' then
        inr (mk_ndarray [m; n]
               (tabulate (m * n) (fun o =>
                  let i := o / n in
                  let j := o mod n in
                  total (map (fun t => mul (item a (i * k + t)) (item b (t * n + j)))
                             (range k)))))
      else inl ValueError
  | _, _ => inl ValueError
  end.

(** Element-wise binary operation with broadcasting. *)
Definition zip_with (f : A -> A -> A) (a b : ndarray A) : result (ndarray A) :=
  rbind (broadcast_shapes (shape a) (shape b)) (fun osh =>
    inr (mk_ndarray osh
           (tabulate (size osh) (fun o =>
              let oi := unravel osh o in
              f (item a (ravel (shape a) (broadcast_index (shape a) oi)))
                (item b (ravel (shape b) (broadcast_index (shape b) oi))))))).

Definition tadd : ndarray A -> ndarray A -> result (ndarray A) := zip_with add.
Definition tmul : ndarray A -> ndarray A -> result (ndarray A) := zip_with mul.

(** [a.sum(axis=axes)] *)
Definition sum_axes (a : ndarray A) (axes : list Z) : result (ndarray A) :=
  let sh := shape a in
  let ndim := zlength sh in
  let axes' := map (normalize_axis ndim) axes in
  if axes_ok ndim axes' then
    let keep := filter (fun k => negb (mem k axes')) (range ndim) in
    let osh := map (znth sh) keep in
    inr (mk_ndarray osh
           (tabulate (size osh) (fun o =>
              let oi := unravel osh o in
              total (map (item a)
                       (filter (fun i => idx_eqb (map (znth (unravel sh i)) keep) oi)
                               (range (size sh)))))))
  else inl ValueError.

(** [np.zeros(sh)] *)
Definition zeros (sh : list Z) : ndarray A :=
  mk_ndarray sh (tabulate (size sh) (fun _ => zero)).

(** [t.data_subjects] *)
Definition data_subjects (a : ndarray A) : ndarray DS :=
  mk_ndarray (shape a) (map subject (data a)).

(** *** Patch extraction and patch scatter *)

(** Extent of the output along one spatial axis. *)
Definition out_extent (n k padding stride : Z) : Z :=
  (n + 2 * padding - k) / stride + 1.

(** Element [(n, c, y, x)] of the zero-padded image. *)
Definition padded_item (x : ndarray A) (N C H W padding n c y xx : Z) : A :=
  if (padding <=? y) && (y <? H + padding) &&
     (padding <=? xx) && (xx <? W + padding)
  then item x (ravel [N; C; H; W] [n; c; y - padding; xx - padding])
  else zero.

(** Parameters outside the domain of the transforms: a negative kernel
    side, padding or stride, or a window larger than the padded image. *)
Definition bad_geometry (kh kw padding stride oh ow : Z) : bool :=
  (kh <? 0) || (kw <? 0) || (padding <? 0) || (stride <? 0) ||
  (oh <? 0) || (ow <? 0).

(** Modelled from the spec: utils.im2col_indices is not part of the
    sources at hand.  A tensor of shape (N, C, H, W) becomes a matrix of
    shape (C*kh*kw, N*out_h*out_w); row (c, ki, kj), column (i, j, n)
    holds element (n, c, i*stride + ki, j*stride + kj) of the zero-padded
    image, and padding cells are the zero element with no data subject.
    Outside that domain the helper raises. *)
Definition im2col_indices (x : ndarray A) (kh kw padding stride : Z)
  : result (ndarray A) :=
  rbind (unpack4 (shape x)) (fun '(N, C, Hx, Wx) =>
    if stride =? 0 then inl ZeroDivisionError
    else
      let oh := out_extent Hx kh padding stride in
      let ow := out_extent Wx kw padding stride in
      if bad_geometry kh kw padding stride oh ow then inl ValueError
      else
        let rows := C * kh * kw in
        let cols := N * oh * ow in
        inr (mk_ndarray [rows; cols]
               (tabulate (rows * cols) (fun o =>
                  match unravel [C; kh; kw] (o / cols),
                        unravel [oh; ow; N] (o mod cols) with
                  | [c; ki; kj], [i; j; n] =>
                      padded_item x N C Hx Wx padding
                        n c (i * stride + ki) (j * stride + kj)
                  | _, _ => zero
                  end)))).

(** What patch (ki, kj) contributes to the padded cell (c, y, x) of
    image n: the entry of the patch matrix it was read into, if any. *)
Definition patch_contribution (cols : ndarray A)
    (N C kh kw oh ow stride n c y xx ki kj : Z) : A :=
  let dy := y - ki in
  let dx := xx - kj in
  if (0 <=? dy) && (dy mod stride =? 0) && (dy / stride <? oh) &&
     (0 <=? dx) && (dx mod stride =? 0) && (dx / stride <? ow)
  then item cols (ravel [C; kh; kw; oh; ow; N]
                        [c; ki; kj; dy / stride; dx / stride; n])
  else zero.

(** Modelled from the spec: utils.col2im_indices is not part of the
    sources at hand.  The entries of the patch matrix, read in the layout
    of the patch extraction, are summed into the cells of the padded
    image they were read from; the padding is cropped, and the data
    subjects of the cached input are attached again, cell by cell.  The
    target shape is unpacked as (N, C, H, W). *)
Definition col2im_indices (cols : ndarray A) (x_shape : option (list Z))
    (ds : ndarray DS) (kh kw padding stride : Z) : result (ndarray A) :=
  match x_shape with
  | None => inl TypeError
  | Some xs =>
      rbind (unpack4 xs) (fun '(N, C, Hx, Wx) =>
        if stride =? 0 then inl ZeroDivisionError
        else
          let oh := out_extent Hx kh padding stride in
          let ow := out_extent Wx kw padding stride in
          if bad_geometry kh kw padding stride oh ow then inl ValueError
          else if size (shape cols) =? C * kh * kw * (N * oh * ow) then
            inr (mk_ndarray [N; C; Hx; Wx]
                   (tabulate (size [N; C; Hx; Wx]) (fun o =>
                      match unravel [N; C; Hx; Wx] o with
                      | [n; c; y; xx] =>
                          with_subject
                            (nth (Z.to_nat o) (data ds) no_subject)
                            (total
                               (map (fun kk =>
                                       patch_contribution cols N C kh kw oh ow
                                         stride n c (y + padding) (xx + padding)
                                         (kk / kw) (kk mod kw))
                                    (range (kh * kw))))
                      | _ => zero
                      end)))
          else inl ValueError)
  end.

End Arrays.

(** ** The layer *)

(** A predecessor in the network: only its output shape is read. *)
Module Layer.
Record t : Type := mk { out_shape : option (list Z) }.
End Layer.

(** The [filter_size] argument: an int, a tuple, or anything else. *)
Inductive filter_size_t : Type :=
| FilterInt (k : Z)
| FilterTuple (t : list Z)
| FilterOther.

Section Convolution.
Context {A DS : Type} `{Element A DS}.

(** The activation strategy: [forward] and [derivative]. *)
Record Activation : Type := mk_activation {
  act_forward : ndarray A -> ndarray A;
  act_derivative : ndarray A -> ndarray A
}.

(** The attributes of a [Convolution] instance.  [None] is Python's None
    (for [ds_cached], which the constructor does not create, a missing
    attribute).  [init] draws the values of a weight array of the given
    shape. *)
Record Convolution : Type := mk_convolution {
  nb_filter : Z;
  filter_size : filter_size_t;
  input_shape : option (list Z);
  stride : Z;
  padding : Z;
  W : option (ndarray A);
  dW : option (ndarray A);
  b : option (ndarray A);
  db : option (ndarray A);
  out_shape : option (list Z);
  last_output : option (ndarray A);
  last_input : option (ndarray A);
  X_col : option (ndarray A);
  ds_cached : option (ndarray DS);
  init : list Z -> list A;
  activation : option Activation
}.

(** [Convolution.__init__] *)
Definition Convolution_init (nb_filter : Z) (filter_size : filter_size_t)
    (input_shape : option (list Z)) (stride padding : Z)
    (activation : option Activation) (draw : list Z -> list A)
  : Convolution :=
  {| nb_filter := nb_filter;
     filter_size := filter_size;
     input_shape := input_shape;
     stride := stride;
     padding := padding;
     W := None; dW := None;
     b := None; db := None;
     out_shape := None;
     last_output := None;
     last_input := None;
     X_col := None;
     ds_cached := None;
     init := draw;
     activation := activation |}.

(** *** Attribute assignment *)

Definition set_out_shape (v : option (list Z)) (s : Convolution) : Convolution :=
  mk_convolution (nb_filter s) (filter_size s) (input_shape s) (stride s)
    (padding s) (W s) (dW s) (b s) (db s) v (last_output s) (last_input s)
    (X_col s) (ds_cached s) (init s) (activation s).

Definition set_W (v : option (ndarray A)) (s : Convolution) : Convolution :=
  mk_convolution (nb_filter s) (filter_size s) (input_shape s) (stride s)
    (padding s) v (dW s) (b s) (db s) (out_shape s) (last_output s)
    (last_input s) (X_col s) (ds_cached s) (init s) (activation s).

Definition set_b (v : option (ndarray A)) (s : Convolution) : Convolution :=
  mk_convolution (nb_filter s) (filter_size s) (input_shape s) (stride s)
    (padding s) (W s) (dW s) v (db s) (out_shape s) (last_output s)
    (last_input s) (X_col s) (ds_cached s) (init s) (activation s).

Definition set_dW (v : option (ndarray A)) (s : Convolution) : Convolution :=
  mk_convolution (nb_filter s) (filter_size s) (input_shape s) (stride s)
    (padding s) (W s) v (b s) (db s) (out_shape s) (last_output s)
    (last_input s) (X_col s) (ds_cached s) (init s) (activation s).

Definition set_db (v : option (ndarray A)) (s : Convolution) : Convolution :=
  mk_convolution (nb_filter s) (filter_size s) (input_shape s) (stride s)
    (padding s) (W s) (dW s) (b s) v (out_shape s) (last_output s)
    (last_input s) (X_col s) (ds_cached s) (init s) (activation s).

Definition set_last_output (v : option (ndarray A)) (s : Convolution) : Convolution :=
  mk_convolution (nb_filter s) (filter_size s) (input_shape s) (stride s)
    (padding s) (W s) (dW s) (b s) (db s) (out_shape s) v
    (last_input s) (X_col s) (ds_cached s) (init s) (activation s).

Definition set_last_input (v : option (ndarray A)) (s : Convolution) : Convolution :=
  mk_convolution (nb_filter s) (filter_size s) (input_shape s) (stride s)
    (padding s) (W s) (dW s) (b s) (db s) (out_shape s) (last_output s)
    v (X_col s) (ds_cached s) (init s) (activation s).

Definition set_X_col (v : option (ndarray A)) (s : Convolution) : Convolution :=
  mk_convolution (nb_filter s) (filter_size s) (input_shape s) (stride s)
    (padding s) (W s) (dW s) (b s) (db s) (out_shape s) (last_output s)
    (last_input s) v (ds_cached s) (init s) (activation s).

Definition set_ds_cached (v : option (ndarray DS)) (s : Convolution) : Convolution :=
  mk_convolution (nb_filter s) (filter_size s) (input_shape s) (stride s)
    (padding s) (W s) (dW s) (b s) (db s) (out_shape s) (last_output s)
    (last_input s) (X_col s) v (init s) (activation s).

(** *** Methods: a computation on [self] that may raise

    A method takes the layer, returns the layer as it has left it, and
    either a value or the exception raised; attributes assigned before an
    exception stay assigned. *)
Definition M (X : Type) : Type := Convolution -> Convolution * result X.

Definition ret {X : Type} (x : X) : M X := fun s => (s, inr x).

Definition raise {X : Type} (e : exn) : M X := fun s => (s, inl e).

Definition bind {X Y : Type} (m : M X) (k : X -> M Y) : M Y :=
  fun s =>
    match m s with
    | (s', inl e) => (s', inl e)
    | (s', inr x) => k x s'
    end.

(** A fallible expression that does not touch [self]. *)
Definition lift {X : Type} (r : result X) : M X := fun s => (s, r).

(** Read an attribute. *)
Definition attr {X : Type} (f : Convolution -> X) : M X :=
  fun s => (s, inr (f s)).

(** Assign an attribute. *)
Definition assign (f : Convolution -> Convolution) : M unit :=
  fun s => (f s, inr tt).

(** Read an attribute that must hold an object, for an access such as
    [self.W.shape]: on None the access raises [e]. *)
Definition attr_of {X : Type} (f : Convolution -> option X) (e : exn) : M X :=
  fun s =>
    match f s with
    | Some x => (s, inr x)
    | None => (s, inl e)
    end.

End Convolution.

Arguments Activation A : clear implicits.
Arguments Convolution A DS : clear implicits.
Arguments M A DS X : clear implicits.

Notation "x <- m ;; k" := (bind m (fun x => k))
  (at level 61, m at next level, right associativity).
Notation "' p <- m ;; k" := (bind m (fun p => k))
  (at level 61, p pattern, m at next level, right associativity).
Notation "m ;;; k" := (bind m (fun _ => k))
  (at level 61, right associativity).

(** Python's [a // b] on ints; Z division floors in the same way. *)
Definition floordiv (a b : Z) : result Z :=
  if b =? 0 then inl ZeroDivisionError else inr (a / b).

Section Methods.
Context {A DS : Type} `{Element A DS}.

Local Abbreviation Conv := (Convolution A DS).
Local Abbreviation M := (M A DS).

(** [np.zeros(sh)]: negative dimensions are not allowed. *)
Definition np_zeros (sh : list Z) : result (ndarray A) :=
  if forallb (fun d => 0 <=? d) sh then inr (zeros sh) else inl ValueError.

(** Modelled from the spec: the initialization strategy is not part of
    the sources at hand; [self.init(sh)] generates a plain array of shape
    [sh], whose values are the layer's draw. *)
Definition call_init (sh : list Z) : M (ndarray A) :=
  draw <- attr init ;;
  lift (if forallb (fun d => 0 <=? d) sh
        then inr (mk_ndarray sh (draw sh))
        else inl ValueError).

(** The isinstance dispatch on [self.filter_size]. *)
Definition filter_extent (fs : filter_size_t) : result (Z * Z) :=
  match fs with
  | FilterTuple t => unpack2 t
  | FilterInt k => inr (k, k)
  | FilterOther => inl NotImplementedError
  end.

(** [Convolution.connect_to] *)
Definition connect_to (prev_layer : option Layer.t) : M unit :=
  input_shape <-
    match prev_layer with
    | None => attr_of input_shape AssertionError
    | Some prev =>
        match Layer.out_shape prev with
        | Some sh => ret sh
        | None => raise TypeError
        end
    end ;;
  (if zlength input_shape =? 4 then ret tt else raise AssertionError) ;;;
  '(nb_batch, pre_nb_filter, pre_height, pre_width) <-
    lift (unpack4 input_shape) ;;
  fs <- attr filter_size ;;
  '(filter_height, filter_width) <- lift (filter_extent fs) ;;
  padding <- attr padding ;;
  stride <- attr stride ;;
  qh <- lift (floordiv (pre_height - filter_height + 2 * padding) stride) ;;
  let height := qh + 1 in
  qw <- lift (floordiv (pre_width - filter_width + 2 * padding) stride) ;;
  let width := qw + 1 in
  nb_filter <- attr nb_filter ;;
  assign (set_out_shape (Some [nb_batch; nb_filter; height; width])) ;;;
  w <- call_init [nb_filter; pre_nb_filter; filter_height; filter_width] ;;
  assign (set_W (Some w)) ;;;
  z <- lift (np_zeros [nb_filter]) ;;
  assign (set_b (Some z)).

(** [Convolution.forward] *)
Definition forward (input : ndarray A) : M (ndarray A) :=
  assign (set_last_input (Some input)) ;;;
  w <- attr_of W AttributeError ;;
  '(n_filters, d_filter, h_filter, w_filter) <- lift (unpack4 (shape w)) ;;
  '(n_x, d_x, h_x, w_x) <- lift (unpack4 (shape input)) ;;
  osh <- attr_of out_shape TypeError ;;
  '(_, _, h_out, w_out) <- lift (unpack4 osh) ;;
  assign (set_ds_cached (Some (data_subjects input))) ;;;
  padding <- attr padding ;;
  stride <- attr stride ;;
  xc <- lift (im2col_indices input h_filter w_filter padding stride) ;;
  assign (set_X_col (Some xc)) ;;;
  W_col <- lift (reshape w [n_filters; -1]) ;;
  out <- lift (matmul (T xc) (T W_col)) ;;
  bias <- attr_of b TypeError ;;
  out <- lift (tadd out bias) ;;
  out <- lift (reshape out [n_filters; h_out; w_out; n_x]) ;;
  out <- lift (transpose out [3; 0; 1; 2]) ;;
  act <- attr activation ;;
  assign (set_last_output
            (Some match act with
                  | Some a => act_forward a out
                  | None => out
                  end)) ;;;
  ret out.

(** [Convolution.backward].  The two assignments to the shapes of the
    bound arrays (after the reshapes of [db] and of the transposed
    gradient) have nothing to do here: bounds share the shape of their
    values.  Of the print calls only the one that reads [self.X_col.shape]
    can raise, and [attr_of X_col] stands for it. *)
Definition backward (pre_grad : ndarray A) : M (ndarray A) :=
  w <- attr_of W AttributeError ;;
  '(n_filter, d_filter, h_filter, w_filter) <- lift (unpack4 (shape w)) ;;
  act <- attr activation ;;
  pre_grads <-
    lift (match act with
          | Some a => tmul pre_grad (act_derivative a pre_grad)
          | None => inr pre_grad
          end) ;;
  db <- lift (sum_axes pre_grads [0; 2; 3]) ;;
  db <- lift (reshape db [n_filter; -1]) ;;
  assign (set_db (Some db)) ;;;
  pre_grads_reshaped <- lift (transpose pre_grads [1; 2; 3; 0]) ;;
  pre_grads_reshaped <- lift (reshape pre_grads_reshaped [n_filter; -1]) ;;
  xc <- attr_of X_col AttributeError ;;
  dW <- lift (matmul pre_grads_reshaped (T xc)) ;;
  dW <- lift (reshape dW (shape w)) ;;
  assign (set_dW (Some dW)) ;;;
  W_reshape <- lift (reshape w [n_filter; -1]) ;;
  dX_col <- lift (matmul (T pre_grads_reshaped) W_reshape) ;;
  x_shape <- attr input_shape ;;
  ds <- attr_of ds_cached AttributeError ;;
  padding <- attr padding ;;
  stride <- attr stride ;;
  dX <- lift (col2im_indices dX_col x_shape ds h_filter w_filter padding stride) ;;
  ret dX.

(** [Convolution.params], the getter. *)
Definition params (self : Conv) : option (ndarray A) * option (ndarray A) :=
  (W self, b self).

(** [Convolution.params], the setter; [new_params] is any sequence of
    objects. *)
Definition set_params (new_params : list (option (ndarray A))) : M unit :=
  (if zlength new_params =? 2 then ret tt else raise AssertionError) ;;;
  match new_params with
  | [w; bias] => assign (set_W w) ;;; assign (set_b bias)
  | _ => raise ValueError
  end.

(** [Convolution.grads] *)
Definition grads (self : Conv) : option (ndarray A) * option (ndarray A) :=
  (dW self, db self).

(** *** Vocabulary of the statements *)

(** The input shape [connect_to] works from: the layer's own when there is
    no predecessor, the predecessor's output shape otherwise. *)
Definition connect_source (prev_layer : option Layer.t) (self : Conv)
  : option (list Z) :=
  match prev_layer with
  | None => input_shape self
  | Some prev => Layer.out_shape prev
  end.

(** The layer after a call, and what the call returned or raised. *)
Definition state_after {X : Type} (m : M X) (self : Conv) : Conv := fst (m self).
Definition outcome {X : Type} (m : M X) (self : Conv) : result X := snd (m self).

(** Every call of [m] relates the layer before to the layer after by [R]. *)
Definition keeps {X : Type} (R : Conv -> Conv -> Prop) (m : M X) : Prop :=
  forall s, R s (fst (m s)).

(** Every call of [m] that returns satisfies [Q] of the layer after the
    call and the value returned. *)
Definition ensures {X : Type} (Q : Conv -> X -> Prop) (m : M X) : Prop :=
  forall s s' x, m s = (s', inr x) -> Q s' x.

(** A call leaves every attribute other than the four caches of a pass
    ([last_input], [ds_cached], [X_col], [last_output]) as it was. *)
Definition only_caches_written (s s' : Conv) : Prop :=
  nb_filter s' = nb_filter s /\
  filter_size s' = filter_size s /\
  input_shape s' = input_shape s /\
  stride s' = stride s /\
  padding s' = padding s /\
  W s' = W s /\
  dW s' = dW s /\
  b s' = b s /\
  db s' = db s /\
  out_shape s' = out_shape s /\
  init s' = init s /\
  activation s' = activation s.

End Methods.

(** ** A concrete element type: integers, without data subjects *)

#[export] Instance Z_element : Element Z unit := {|
  zero := 0;
  add := Z.add;
  mul := Z.mul;
  no_subject := tt;
  subject := fun _ => tt;
  with_subject := fun _ v => v
|}.

(** ** Concrete layers and tensors *)

(** A rectifier on integer arrays: [forward] clips at zero, [derivative]
    is 1 on positive entries and 0 elsewhere. *)
Definition relu : Activation Z :=
  mk_activation
    (fun a => mk_ndarray (shape a) (map (Z.max 0) (data a)))
    (fun a => mk_ndarray (shape a)
                (map (fun v => if 0 <? v then 1 else 0) (data a))).

(** An initial draw with every weight equal to 1. *)
Definition ones_draw (sh : list Z) : list Z := tabulate (size sh) (fun _ => 1).

(** One 2x2 filter, stride 1, no padding, rectified, constructed with the
    input shape (1, 1, 2, 2). *)
Definition new_relu_layer : Convolution Z unit :=
  Convolution_init 1 (FilterInt 2) (Some [1; 1; 2; 2]) 1 0 (Some relu) ones_draw.

(** The same layer without activation. *)
Definition new_plain_layer : Convolution Z unit :=
  Convolution_init 1 (FilterInt 2) (Some [1; 1; 2; 2]) 1 0 None ones_draw.

(** The same configuration constructed without an input shape, for a layer
    that follows another one. *)
Definition new_inner_layer : Convolution Z unit :=
  Convolution_init 1 (FilterInt 2) None 1 0 None ones_draw.

(** A predecessor whose output shape is (1, 1, 2, 2). *)
Definition predecessor : Layer.t := Layer.mk (Some [1; 1; 2; 2]).

(** The three layers, connected. *)
Definition relu_layer : Convolution Z unit :=
  state_after (connect_to None) new_relu_layer.

Definition plain_layer : Convolution Z unit :=
  state_after (connect_to None) new_plain_layer.

Definition inner_layer : Convolution Z unit :=
  state_after (connect_to (Some predecessor)) new_inner_layer.

Definition x_negative : ndarray Z := mk_ndarray [1; 1; 2; 2] [-1; -2; -3; 1].
Definition x_positive : ndarray Z := mk_ndarray [1; 1; 2; 2] [1; 2; 3; 4].
Definition x_wide : ndarray Z := mk_ndarray [1; 1; 3; 3] [1; 2; 3; 4; 5; 6; 7; 8; 9].
Definition g_negative : ndarray Z := mk_ndarray [1; 1; 1; 1] [-2].

(** A matrix, and an image with two channels. *)
Definition x_flat : ndarray Z := mk_ndarray [2; 2] [1; 2; 3; 4].
Definition x_two_channels : ndarray Z :=
  mk_ndarray [1; 2; 2; 2] [1; 2; 3; 4; 5; 6; 7; 8].

(** The layer of the class docstring: an input shape without the sample
    axis. *)
Definition docstring_layer : Convolution Z unit :=
  Convolution_init 1 (FilterInt 2) (Some [3; 128; 128]) 1 0 None ones_draw.

(** ** Further vocabulary *)

Section Frames.
Context {A DS : Type} `{Element A DS}.

Local Abbreviation Conv := (Convolution A DS).

(** A call leaves every attribute other than [out_shape], [W] and [b] as it
    was. *)
Definition only_connection_written (s s' : Conv) : Prop :=
  nb_filter s' = nb_filter s /\
  filter_size s' = filter_size s /\
  input_shape s' = input_shape s /\
  stride s' = stride s /\
  padding s' = padding s /\
  dW s' = dW s /\
  db s' = db s /\
  last_output s' = last_output s /\
  last_input s' = last_input s /\
  X_col s' = X_col s /\
  ds_cached s' = ds_cached s /\
  init s' = init s /\
  activation s' = activation s.

(** A call leaves every attribute other than [dW] and [db] as it was. *)
Definition only_grads_written (s s' : Conv) : Prop :=
  nb_filter s' = nb_filter s /\
  filter_size s' = filter_size s /\
  input_shape s' = input_shape s /\
  stride s' = stride s /\
  padding s' = padding s /\
  W s' = W s /\
  b s' = b s /\
  out_shape s' = out_shape s /\
  last_output s' = last_output s /\
  last_input s' = last_input s /\
  X_col s' = X_col s /\
  ds_cached s' = ds_cached s /\
  init s' = init s /\
  activation s' = activation s.

(** A call leaves [last_input] as it was. *)
Definition keeps_last_input (s s' : Conv) : Prop :=
  last_input s' = last_input s.

End Frames.

(** Every entry of an integer array is 0, wherever it is read. *)
Definition all_zero (a : ndarray Z) : Prop := forall i : Z, item a i = 0.

(** Three images of the shape the concrete layers were connected with. *)
Definition x_batch : ndarray Z :=
  mk_ndarray [3; 1; 2; 2] [1; 2; 3; 4; 5; 6; 7; 8; 9; 10; 11; 12].

(** A gradient of the output shape with every entry 0. *)
Definition g_zero : ndarray Z := mk_ndarray [1; 1; 1; 1] [0].

(** A layer with a filter size that is neither an int nor a tuple, one with
    a tuple of three sides, one with stride 0, and a predecessor that has
    not been connected. *)
Definition odd_filter_layer : Convolution Z unit :=
  Convolution_init 1 FilterOther (Some [1; 1; 2; 2]) 1 0 None ones_draw.

Definition cubic_filter_layer : Convolution Z unit :=
  Convolution_init 1 (FilterTuple [2; 2; 2]) (Some [1; 1; 2; 2]) 1 0 None ones_draw.

Definition still_layer : Convolution Z unit :=
  Convolution_init 1 (FilterInt 2) (Some [1; 1; 2; 2]) 0 0 None ones_draw.

Definition loose_predecessor : Layer.t := Layer.mk None.

(** A layer with an empty kernel: filter size 0, constructed with the input
    shape (1, 1, 2, 2), and the same layer connected. *)
Definition new_empty_kernel_layer : Convolution Z unit :=
  Convolution_init 1 (FilterInt 0) (Some [1; 1; 2; 2]) 1 0 None ones_draw.

Definition empty_kernel_layer : Convolution Z unit :=
  state_after (connect_to None) new_empty_kernel_layer.

(** ** Shapes of the array operations *)

Lemma filter_negative_none (sh : list Z) :
  forallb (fun d => 0 <=? d) sh = true ->
  filter (fun d => d <? 0) sh = [] /\ filter (fun d => 0 <=? d) sh = sh.
Proof.
  induction sh as [|d sh IH]; simpl; [easy|].
  intros Hall. apply andb_true_iff in Hall as [Hd Hsh].
  destruct (IH Hsh) as [IH1 IH2].
  rewrite Hd. apply Z.leb_le in Hd.
  destruct (Z.ltb_spec d 0) as [Hneg|_]; [lia|].
  now rewrite IH1, IH2.
Qed.

Lemma fix_unknown_dimension_exact (sh : list Z) (n : Z) :
  forallb (fun d => 0 <=? d) sh = true ->
  n = size sh ->
  fix_unknown_dimension sh n = inr sh.
Proof.
  intros Hall ->. unfold fix_unknown_dimension.
  destruct (filter_negative_none sh Hall) as [-> ->].
  now rewrite Z.eqb_refl.
Qed.

Lemma fix_unknown_dimension_row (n k : Z) :
  0 < n ->
  fix_unknown_dimension [n; -1] (n * k) = inr [n; k].
Proof.
  intros Hn. unfold fix_unknown_dimension. simpl.
  destruct (Z.ltb_spec n 0) as [Hneg|_]; [lia|].
  destruct (Z.leb_spec 0 n) as [_|Hneg]; [|lia].
  simpl.
  replace (n * 1) with n by lia.
  destruct (Z.eqb_spec n 0) as [H0|_]; [lia|].
  replace (n * k) with (k * n) by lia.
  rewrite Z.mod_mul by lia. rewrite Z.div_mul by lia.
  reflexivity.
Qed.

(** A row count that is not positive cannot be completed by [-1]. *)
Lemma fix_unknown_dimension_row_fails (n s : Z) :
  n <= 0 ->
  fix_unknown_dimension [n; -1] s = inl ValueError.
Proof.
  intros Hn. unfold fix_unknown_dimension. simpl.
  destruct (Z.ltb_spec n 0) as [Hneg|Hpos]; [reflexivity|].
  assert (n = 0) as -> by lia. reflexivity.
Qed.

Section ArrayShapes.
Context {A DS : Type} `{Element A DS}.

Lemma reshape_exact (a : ndarray A) (sh : list Z) :
  forallb (fun d => 0 <=? d) sh = true ->
  size (shape a) = size sh ->
  reshape a sh = inr (mk_ndarray sh (data a)).
Proof.
  intros Hall Hsz. unfold reshape.
  now rewrite (fix_unknown_dimension_exact sh _ Hall Hsz).
Qed.

Lemma reshape_row (a : ndarray A) (n k : Z) :
  0 < n ->
  size (shape a) = n * k ->
  reshape a [n; -1] = inr (mk_ndarray [n; k] (data a)).
Proof.
  intros Hn Hsz. unfold reshape.
  now rewrite Hsz, (fix_unknown_dimension_row n k Hn).
Qed.

Lemma reshape_error (a : ndarray A) (sh : list Z) (e : exn) :
  reshape a sh = inl e -> e = ValueError.
Proof.
  unfold reshape, fix_unknown_dimension.
  destruct (filter _ sh) as [|? [|? ?]]; simpl.
  - destruct (_ =? _); simpl; congruence.
  - destruct (_ || _); simpl; congruence.
  - congruence.
Qed.

Lemma shape_T (a : ndarray A) : shape (T a) = rev (shape a).
Proof. reflexivity. Qed.

Lemma matmul_shape (a b0 : ndarray A) (m k n : Z) :
  shape a = [m; k] ->
  shape b0 = [k; n] ->
  exists c, matmul a b0 = inr c /\ shape c = [m; n].
Proof.
  intros Ha Hb. unfold matmul. rewrite Ha, Hb, Z.eqb_refl.
  eexists; split; reflexivity.
Qed.

Lemma matmul_mismatch (a b0 : ndarray A) (m k k' n : Z) :
  shape a = [m; k] ->
  shape b0 = [k'; n] ->
  k <> k' ->
  matmul a b0 = inl ValueError.
Proof.
  intros Ha Hb Hk. unfold matmul. rewrite Ha, Hb.
  destruct (Z.eqb_spec k k'); [contradiction|reflexivity].
Qed.

Lemma matmul_error (a b0 : ndarray A) (e : exn) :
  matmul a b0 = inl e -> e = ValueError.
Proof.
  unfold matmul.
  destruct (shape a) as [|? [|? [|? ?]]]; try congruence.
  destruct (shape b0) as [|? [|? [|? ?]]]; try congruence.
  destruct (_ =? _); congruence.
Qed.

Lemma broadcast_row (m f : Z) : broadcast_shapes [m; f] [f] = inr [m; f].
Proof.
  unfold broadcast_shapes. simpl. now rewrite Z.eqb_refl.
Qed.

Lemma tadd_row (a b0 : ndarray A) (m f : Z) :
  shape a = [m; f] ->
  shape b0 = [f] ->
  exists c, tadd a b0 = inr c /\ shape c = [m; f].
Proof.
  intros Ha Hb. unfold tadd, zip_with.
  rewrite Ha, Hb, broadcast_row. simpl.
  eexists; split; reflexivity.
Qed.

Lemma transpose_3012 (a : ndarray A) (d0 d1 d2 d3 : Z) :
  shape a = [d0; d1; d2; d3] ->
  exists c, transpose a [3; 0; 1; 2] = inr c /\ shape c = [d3; d0; d1; d2].
Proof.
  intros Ha. unfold transpose. rewrite Ha. simpl.
  eexists; split; reflexivity.
Qed.

Lemma transpose_1230 (a : ndarray A) (d0 d1 d2 d3 : Z) :
  shape a = [d0; d1; d2; d3] ->
  exists c, transpose a [1; 2; 3; 0] = inr c /\ shape c = [d1; d2; d3; d0].
Proof.
  intros Ha. unfold transpose. rewrite Ha. simpl.
  eexists; split; reflexivity.
Qed.

Lemma sum_axes_023 (a : ndarray A) (d0 d1 d2 d3 : Z) :
  shape a = [d0; d1; d2; d3] ->
  exists c, sum_axes a [0; 2; 3] = inr c /\ shape c = [d1].
Proof.
  intros Ha. unfold sum_axes. rewrite Ha. simpl.
  eexists; split; reflexivity.
Qed.

Lemma bad_geometry_false (kh kw padding stride oh ow : Z) :
  0 <= kh -> 0 <= kw -> 0 <= padding -> 0 < stride -> 0 <= oh -> 0 <= ow ->
  bad_geometry kh kw padding stride oh ow = false.
Proof.
  intros. unfold bad_geometry.
  repeat (apply orb_false_iff; split); apply Z.ltb_ge; lia.
Qed.

Lemma im2col_indices_shape (x : ndarray A) (N C Hx Wx kh kw padding stride : Z) :
  shape x = [N; C; Hx; Wx] ->
  0 <= kh -> 0 <= kw -> 0 <= padding -> 0 < stride ->
  0 <= out_extent Hx kh padding stride ->
  0 <= out_extent Wx kw padding stride ->
  exists xc,
    im2col_indices x kh kw padding stride = inr xc /\
    shape xc = [C * kh * kw;
                N * out_extent Hx kh padding stride
                  * out_extent Wx kw padding stride].
Proof.
  intros Hx0 Hkh Hkw Hp Hs Hoh How. unfold im2col_indices.
  rewrite Hx0. simpl.
  destruct (Z.eqb_spec stride 0) as [Hz|_]; [lia|].
  rewrite bad_geometry_false by assumption.
  eexists; split; reflexivity.
Qed.

Lemma im2col_indices_error (x : ndarray A) (kh kw padding stride : Z) (e : exn) :
  stride <> 0 ->
  im2col_indices x kh kw padding stride = inl e -> e = ValueError.
Proof.
  intros Hs. unfold im2col_indices.
  destruct (shape x) as [|? [|? [|? [|? [|? ?]]]]]; simpl; try congruence.
  destruct (Z.eqb_spec stride 0) as [Hz|_]; [contradiction|].
  destruct (bad_geometry _ _ _ _ _ _); congruence.
Qed.

Lemma im2col_indices_rows (x xc : ndarray A) (n c h w kh kw padding stride : Z) :
  shape x = [n; c; h; w] ->
  im2col_indices x kh kw padding stride = inr xc ->
  exists cols, shape xc = [c * kh * kw; cols].
Proof.
  intros Hx0. unfold im2col_indices. rewrite Hx0. simpl.
  destruct (stride =? 0); [congruence|].
  destruct (bad_geometry _ _ _ _ _ _); [congruence|].
  intros [= <-]. eexists; reflexivity.
Qed.

Lemma col2im_indices_shape (cols : ndarray A) (ds : ndarray DS)
    (N C Hx Wx kh kw padding stride : Z) :
  0 <= kh -> 0 <= kw -> 0 <= padding -> 0 < stride ->
  0 <= out_extent Hx kh padding stride ->
  0 <= out_extent Wx kw padding stride ->
  size (shape cols)
    = C * kh * kw * (N * out_extent Hx kh padding stride
                       * out_extent Wx kw padding stride) ->
  exists dX,
    col2im_indices cols (Some [N; C; Hx; Wx]) ds kh kw padding stride = inr dX /\
    shape dX = [N; C; Hx; Wx].
Proof.
  intros Hkh Hkw Hp Hs Hoh How Hsz. unfold col2im_indices. simpl.
  destruct (Z.eqb_spec stride 0) as [Hz|_]; [lia|].
  rewrite bad_geometry_false by assumption.
  rewrite Hsz, Z.eqb_refl.
  eexists; split; reflexivity.
Qed.

End ArrayShapes.

(** ** Stepping through a method *)

Section Steps.
Context {A DS : Type} `{Element A DS}.

Local Abbreviation Conv := (Convolution A DS).
Local Abbreviation M := (M A DS).

Lemma bind_assign {Y : Type} (f : Conv -> Conv) (k : M Y) (s : Conv) :
  (assign f ;;; k) s = k (f s).
Proof. reflexivity. Qed.

Lemma bind_attr {X Y : Type} (f : Conv -> X) (k : X -> M Y) (s : Conv) :
  (x <- attr f ;; k x) s = k (f s) s.
Proof. reflexivity. Qed.

Lemma bind_attr_of {X Y : Type} (f : Conv -> option X) (e : exn)
    (k : X -> M Y) (s : Conv) (x : X) :
  f s = Some x ->
  (y <- attr_of f e ;; k y) s = k x s.
Proof. intros Hf. unfold bind, attr_of. now rewrite Hf. Qed.

Lemma bind_attr_of_none {X Y : Type} (f : Conv -> option X) (e : exn)
    (k : X -> M Y) (s : Conv) :
  f s = None ->
  (y <- attr_of f e ;; k y) s = (s, inl e).
Proof. intros Hf. unfold bind, attr_of. now rewrite Hf. Qed.

Lemma bind_lift {X Y : Type} (r : result X) (k : X -> M Y) (s : Conv) (x : X) :
  r = inr x ->
  (y <- lift r ;; k y) s = k x s.
Proof. now intros ->. Qed.

Lemma bind_lift_raise {X Y : Type} (r : result X) (k : X -> M Y) (s : Conv)
    (e : exn) :
  r = inl e ->
  (y <- lift r ;; k y) s = (s, inl e).
Proof. now intros ->. Qed.

(** *** Relations between the layer before and after a call *)

Section Keeps.
Variable R : Conv -> Conv -> Prop.
Hypothesis R_refl : forall s, R s s.
Hypothesis R_trans : forall s1 s2 s3, R s1 s2 -> R s2 s3 -> R s1 s3.

Lemma keeps_ret {X : Type} (x : X) : keeps R (ret x).
Proof. intros s. apply R_refl. Qed.

Lemma keeps_raise {X : Type} (e : exn) : keeps R (raise (X := X) e).
Proof. intros s. apply R_refl. Qed.

Lemma keeps_lift {X : Type} (r : result X) : keeps R (lift r).
Proof. intros s. apply R_refl. Qed.

Lemma keeps_attr {X : Type} (f : Conv -> X) : keeps R (attr f).
Proof. intros s. apply R_refl. Qed.

Lemma keeps_attr_of {X : Type} (f : Conv -> option X) (e : exn) :
  keeps R (attr_of f e).
Proof. intros s. unfold attr_of. destruct (f s); apply R_refl. Qed.

Lemma keeps_assign (f : Conv -> Conv) :
  (forall s, R s (f s)) -> keeps R (assign f).
Proof. intros Hf s. apply Hf. Qed.

Lemma keeps_bind {X Y : Type} (m : M X) (k : X -> M Y) :
  keeps R m -> (forall x, keeps R (k x)) -> keeps R (bind m k).
Proof.
  intros Hm Hk s. unfold bind.
  specialize (Hm s). destruct (m s) as [s' [e|x]]; simpl in *.
  - exact Hm.
  - eapply R_trans; [exact Hm|apply Hk].
Qed.
End Keeps.

Lemma only_caches_written_refl (s : Conv) : only_caches_written s s.
Proof. unfold only_caches_written. repeat split. Qed.

Lemma only_caches_written_trans (s1 s2 s3 : Conv) :
  only_caches_written s1 s2 -> only_caches_written s2 s3 ->
  only_caches_written s1 s3.
Proof.
  unfold only_caches_written. intros H12 H23.
  repeat match goal with
         | H : _ /\ _ |- _ => destruct H
         end.
  repeat split; etransitivity; eassumption.
Qed.

Lemma forward_only_caches (input : ndarray A) :
  keeps only_caches_written (forward input).
Proof.
  pose proof only_caches_written_refl as Hr.
  pose proof only_caches_written_trans as Ht.
  unfold forward.
  repeat match goal with
         | |- keeps _ (bind _ _) => apply (keeps_bind _ Ht); [|intros]
         | |- keeps _ (ret _) => apply (keeps_ret _ Hr)
         | |- keeps _ (lift _) => apply (keeps_lift _ Hr)
         | |- keeps _ (attr _) => apply (keeps_attr _ Hr)
         | |- keeps _ (attr_of _ _) => apply (keeps_attr_of _ Hr)
         | |- keeps _ (assign _) =>
             apply keeps_assign; intros; unfold only_caches_written;
             repeat split
         | |- keeps _ (match ?p with _ => _ end) => destruct p
         end.
Qed.

End Steps.

(** ** Connecting *)

Section LayerFacts.
Context {A DS : Type} `{Element A DS}.

Local Abbreviation Conv := (Convolution A DS).
Local Abbreviation M := (M A DS).

Lemma bind_ret {X Y : Type} (x : X) (k : X -> M Y) (s : Conv) :
  (y <- ret x ;; k y) s = k x s.
Proof. reflexivity. Qed.

Lemma bind_raise {X Y : Type} (e : exn) (k : X -> M Y) (s : Conv) :
  (y <- raise e ;; k y) s = (s, inl e).
Proof. reflexivity. Qed.

Lemma unpack4_length (t : list Z) (e : exn) :
  unpack4 t = inl e -> zlength t <> 4.
Proof.
  destruct t as [|? [|? [|? [|? [|? ?]]]]]; simpl; try discriminate;
    intros _; unfold zlength; simpl; lia.
Qed.

Lemma unpack4_inr (t : list Z) (a b0 c d : Z) :
  unpack4 t = inr (a, b0, c, d) -> t = [a; b0; c; d].
Proof.
  destruct t as [|? [|? [|? [|? [|? ?]]]]]; simpl; try discriminate.
  now intros [= -> -> -> ->].
Qed.

Lemma zlength_4 (t : list Z) :
  zlength t = 4 -> exists a b0 c d, t = [a; b0; c; d].
Proof.
  destruct t as [|a [|b0 [|c [|d [|? ?]]]]]; unfold zlength; simpl; try lia.
  intros _. now exists a, b0, c, d.
Qed.

(** The source shape is what the first step of [connect_to] reads. *)
Lemma connect_to_source_some (prev : option Layer.t) (l : Conv)
    (sh : list Z) (k : list Z -> M unit) :
  connect_source prev l = Some sh ->
  (input_shape <-
     match prev with
     | None => attr_of input_shape AssertionError
     | Some p =>
         match Layer.out_shape p with
         | Some sh => ret sh
         | None => raise TypeError
         end
     end ;; k input_shape) l = k sh l.
Proof.
  intros Hsrc. destruct prev as [p|]; simpl in Hsrc.
  - rewrite Hsrc. reflexivity.
  - now apply bind_attr_of.
Qed.

Lemma connect_to_ok (l : Conv) (prev : option Layer.t)
    (N C Hx Wx kh kw : Z) :
  connect_source prev l = Some [N; C; Hx; Wx] ->
  filter_extent (filter_size l) = inr (kh, kw) ->
  stride l <> 0 ->
  0 <= nb_filter l -> 0 <= C -> 0 <= kh -> 0 <= kw ->
  connect_to prev l =
    (set_b (Some (zeros [nb_filter l]))
       (set_W (Some (mk_ndarray [nb_filter l; C; kh; kw]
                       (init l [nb_filter l; C; kh; kw])))
          (set_out_shape
             (Some [N; nb_filter l;
                    (Hx - kh + 2 * padding l) / stride l + 1;
                    (Wx - kw + 2 * padding l) / stride l + 1]) l)),
     inr tt).
Proof.
  intros Hsrc Hfs Hs HF HC Hkh Hkw.
  unfold connect_to.
  rewrite (connect_to_source_some prev l _ _ Hsrc).
  change (zlength [N; C; Hx; Wx] =? 4) with true. cbv iota.
  rewrite bind_ret.
  rewrite (bind_lift _ _ _ (N, C, Hx, Wx)) by reflexivity. cbv beta iota.
  rewrite bind_attr.
  rewrite (bind_lift _ _ _ (kh, kw)) by exact Hfs. cbv beta iota.
  rewrite !bind_attr.
  unfold floordiv.
  destruct (Z.eqb_spec (stride l) 0) as [Hz|_]; [contradiction|].
  rewrite (bind_lift _ _ _ _ eq_refl). cbv beta zeta.
  rewrite (bind_lift _ _ _ _ eq_refl).
  rewrite bind_attr, bind_assign.
  unfold call_init, np_zeros, bind, attr, lift, assign. simpl.
  destruct (Z.leb_spec 0 (nb_filter l)); [|lia].
  destruct (Z.leb_spec 0 C); [|lia].
  destruct (Z.leb_spec 0 kh); [|lia].
  destruct (Z.leb_spec 0 kw); [|lia].
  reflexivity.
Qed.

(** *** A forward pass on an input of the expected shape *)

Lemma forward_ok (l : Conv) (x w bias : ndarray A)
    (F N C Hx Wx kh kw n0 f0 : Z) :
  W l = Some w -> shape w = [F; C; kh; kw] ->
  b l = Some bias -> shape bias = [F] ->
  out_shape l = Some [n0; f0;
                      out_extent Hx kh (padding l) (stride l);
                      out_extent Wx kw (padding l) (stride l)] ->
  shape x = [N; C; Hx; Wx] ->
  0 < F -> 0 <= N -> 0 <= kh -> 0 <= kw ->
  0 <= padding l -> 0 < stride l ->
  0 <= out_extent Hx kh (padding l) (stride l) ->
  0 <= out_extent Wx kw (padding l) (stride l) ->
  exists y xc,
    forward x l =
      (set_last_output
         (Some match activation l with
               | Some a => act_forward a y
               | None => y
               end)
         (set_X_col (Some xc)
            (set_ds_cached (Some (data_subjects x))
               (set_last_input (Some x) l))),
       inr y) /\
    shape y = [N; F;
               out_extent Hx kh (padding l) (stride l);
               out_extent Wx kw (padding l) (stride l)] /\
    shape xc = [C * kh * kw;
                N * out_extent Hx kh (padding l) (stride l)
                  * out_extent Wx kw (padding l) (stride l)].
Proof.
  intros HW Hw Hb Hbias Hout Hx0 HF HN Hkh Hkw Hp Hs Hoh How.
  set (oh := out_extent Hx kh (padding l) (stride l)) in *.
  set (ow := out_extent Wx kw (padding l) (stride l)) in *.
  destruct (im2col_indices_shape x N C Hx Wx kh kw (padding l) (stride l)
              Hx0 Hkh Hkw Hp Hs Hoh How) as (xc & Hxc & Hxcs).
  fold oh ow in Hxcs.
  assert (HWcol : reshape w [F; -1]
                  = inr (mk_ndarray [F; C * kh * kw] (data w))).
  { apply reshape_row; [exact HF|]. rewrite Hw. simpl. lia. }
  destruct (matmul_shape (T xc) (T (mk_ndarray [F; C * kh * kw] (data w)))
              (N * oh * ow) (C * kh * kw) F) as (o1 & Ho1 & Ho1s).
  { rewrite shape_T, Hxcs. reflexivity. }
  { reflexivity. }
  destruct (tadd_row o1 bias (N * oh * ow) F Ho1s Hbias) as (o2 & Ho2 & Ho2s).
  assert (Ho3 : reshape o2 [F; oh; ow; N]
                = inr (mk_ndarray [F; oh; ow; N] (data o2))).
  { apply reshape_exact.
    - simpl. repeat (apply andb_true_iff; split); try reflexivity;
        apply Z.leb_le; lia.
    - rewrite Ho2s. simpl. lia. }
  destruct (transpose_3012 (mk_ndarray [F; oh; ow; N] (data o2)) F oh ow N eq_refl)
    as (y & Hy & Hys).
  exists y, xc. split; [|split; assumption].
  unfold forward.
  rewrite bind_assign.
  rewrite (bind_attr_of _ _ _ _ w) by exact HW.
  rewrite (bind_lift _ _ _ (F, C, kh, kw)) by (rewrite Hw; reflexivity).
  cbv beta iota.
  rewrite (bind_lift _ _ _ (N, C, Hx, Wx)) by (rewrite Hx0; reflexivity).
  cbv beta iota.
  erewrite bind_attr_of by exact Hout.
  rewrite (bind_lift _ _ _ (n0, f0, oh, ow)) by reflexivity.
  cbv beta iota.
  rewrite bind_assign, !bind_attr.
  cbn [padding stride set_ds_cached set_last_input].
  rewrite (bind_lift _ _ _ xc) by exact Hxc.
  rewrite bind_assign.
  rewrite (bind_lift _ _ _ _ HWcol).
  rewrite (bind_lift _ _ _ _ Ho1).
  rewrite (bind_attr_of _ _ _ _ bias) by exact Hb.
  rewrite (bind_lift _ _ _ _ Ho2).
  rewrite (bind_lift _ _ _ _ Ho3).
  rewrite (bind_lift _ _ _ _ Hy).
  rewrite bind_attr, bind_assign.
  reflexivity.
Qed.

Lemma reshape_row_inv (a r : ndarray A) (n : Z) :
  reshape a [n; -1] = inr r ->
  0 < n /\ shape r = [n; size (shape a) / n].
Proof.
  unfold reshape. intros Hr.
  destruct (Z.le_gt_cases n 0) as [Hle|Hgt].
  - rewrite fix_unknown_dimension_row_fails in Hr by exact Hle. discriminate.
  - split; [exact Hgt|].
    unfold fix_unknown_dimension in Hr. simpl in Hr.
    destruct (Z.ltb_spec n 0) as [Hneg|_]; [lia|].
    destruct (Z.leb_spec 0 n) as [_|Hneg]; [|lia].
    simpl in Hr. replace (n * 1) with n in Hr by lia.
    destruct (_ || _); simpl in Hr; [discriminate|].
    injection Hr as <-. reflexivity.
Qed.

(** *** What a successful [connect_to] establishes *)

Lemma connect_to_inv (l l' : Conv) (prev : option Layer.t) :
  connect_to prev l = (l', inr tt) ->
  exists N C Hx Wx kh kw,
    connect_source prev l = Some [N; C; Hx; Wx] /\
    filter_extent (filter_size l) = inr (kh, kw) /\
    stride l <> 0 /\
    0 <= nb_filter l /\ 0 <= C /\ 0 <= kh /\ 0 <= kw /\
    l' = set_b (Some (zeros [nb_filter l]))
           (set_W (Some (mk_ndarray [nb_filter l; C; kh; kw]
                           (init l [nb_filter l; C; kh; kw])))
              (set_out_shape
                 (Some [N; nb_filter l;
                        (Hx - kh + 2 * padding l) / stride l + 1;
                        (Wx - kw + 2 * padding l) / stride l + 1]) l)).
Proof.
  intros Hc.
  destruct (connect_source prev l) as [sh|] eqn:Hsrc.
  2:{ unfold connect_to in Hc.
      destruct prev as [p|]; simpl in Hsrc.
      - rewrite Hsrc, bind_raise in Hc. discriminate.
      - rewrite bind_attr_of_none in Hc by exact Hsrc. discriminate. }
  destruct (zlength sh =? 4) eqn:Hlen.
  2:{ unfold connect_to in Hc.
      rewrite (connect_to_source_some prev l _ _ Hsrc), Hlen, bind_raise in Hc.
      discriminate. }
  apply Z.eqb_eq, zlength_4 in Hlen as (N & C & Hx & Wx & ->).
  destruct (filter_extent (filter_size l)) as [e|[kh kw]] eqn:Hfs.
  { unfold connect_to in Hc.
    rewrite (connect_to_source_some prev l _ _ Hsrc) in Hc.
    change (zlength [N; C; Hx; Wx] =? 4) with true in Hc. cbv iota in Hc.
    rewrite bind_ret in Hc.
    rewrite (bind_lift _ _ _ (N, C, Hx, Wx)) in Hc by reflexivity.
    cbv beta iota in Hc.
    rewrite bind_attr, (bind_lift_raise _ _ _ e) in Hc by exact Hfs.
    discriminate. }
  exists N, C, Hx, Wx, kh, kw.
  assert (Hgo : connect_to prev l =
    (qh <- lift (floordiv (Hx - kh + 2 * padding l) (stride l)) ;;
     qw <- lift (floordiv (Wx - kw + 2 * padding l) (stride l)) ;;
     assign (set_out_shape
               (Some [N; nb_filter l; qh + 1; qw + 1])) ;;;
     w <- call_init [nb_filter l; C; kh; kw] ;;
     assign (set_W (Some w)) ;;;
     z <- lift (np_zeros [nb_filter l]) ;;
     assign (set_b (Some z))) l).
  { unfold connect_to.
    rewrite (connect_to_source_some prev l _ _ Hsrc).
    change (zlength [N; C; Hx; Wx] =? 4) with true. cbv iota.
    rewrite bind_ret.
    rewrite (bind_lift _ _ _ (N, C, Hx, Wx)) by reflexivity. cbv beta iota.
    rewrite bind_attr.
    rewrite (bind_lift _ _ _ (kh, kw)) by exact Hfs. cbv beta iota.
    rewrite !bind_attr. reflexivity. }
  rewrite Hgo in Hc. clear Hgo.
  unfold floordiv in Hc.
  destruct (Z.eqb_spec (stride l) 0) as [Hz|Hnz].
  { rewrite (bind_lift_raise _ _ _ _ eq_refl) in Hc. discriminate. }
  rewrite (bind_lift _ _ _ _ eq_refl) in Hc.
  rewrite (bind_lift _ _ _ _ eq_refl) in Hc.
  rewrite bind_assign in Hc.
  unfold call_init, np_zeros, bind, attr, lift, assign in Hc. simpl in Hc.
  destruct (Z.leb_spec 0 (nb_filter l)) as [HF|HF]; simpl in Hc;
    [|discriminate].
  destruct (Z.leb_spec 0 C) as [HC|HC]; simpl in Hc; [|discriminate].
  destruct (Z.leb_spec 0 kh) as [Hkh|Hkh]; simpl in Hc; [|discriminate].
  destruct (Z.leb_spec 0 kw) as [Hkw|Hkw]; simpl in Hc; [|discriminate].
  injection Hc as <-.
  repeat split; assumption || reflexivity.
Qed.

Lemma out_extent_floor (n k p s : Z) :
  (n - k + 2 * p) / s + 1 = out_extent n k p s.
Proof. unfold out_extent. f_equal. f_equal. lia. Qed.

Lemma out_extent_pos (n k p s : Z) :
  0 < s -> k <= n + 2 * p -> 0 < out_extent n k p s.
Proof.
  intros Hs Hk. unfold out_extent.
  assert (0 <= (n + 2 * p - k) / s) by (apply Z.div_pos; lia). lia.
Qed.

End LayerFacts.

(** ** What a pass computes *)

Section Passes.
Context {A DS : Type} `{Element A DS}.

Local Abbreviation Conv := (Convolution A DS).
Local Abbreviation M := (M A DS).

Lemma ensures_bind {X Y : Type} (Q : Conv -> Y -> Prop) (m : M X) (k : X -> M Y) :
  (forall x, ensures Q (k x)) -> ensures Q (bind m k).
Proof.
  intros Hk s s' y Hb. unfold bind in Hb.
  destruct (m s) as [s1 [e|x]]; [discriminate|].
  exact (Hk x s1 s' y Hb).
Qed.

(** X16.  Whatever [forward] returns, the layer holds in [last_output] its
    activation when an activation is configured, and the returned tensor
    itself otherwise. *)
Lemma forward_stores_activation (input : ndarray A) :
  ensures (fun s' y =>
             last_output s'
             = Some match activation s' with
                    | Some a => act_forward a y
                    | None => y
                    end)
          (forward input).
Proof.
  unfold forward.
  repeat match goal with
         | |- ensures _ (bind (attr activation) _) => fail 1
         | |- ensures _ (bind _ _) => apply ensures_bind; intros
         | |- ensures _ (match ?p with _ => _ end) => destruct p
         end.
  intros s s' y Hret.
  rewrite bind_attr, bind_assign in Hret.
  injection Hret as <- <-. reflexivity.
Qed.

Lemma broadcast_rev_same (r : list Z) : broadcast_rev r r = inr r.
Proof.
  induction r as [|d r IH]; simpl; [reflexivity|].
  now rewrite IH, Z.eqb_refl.
Qed.

Lemma tmul_same_shape (a b0 : ndarray A) :
  shape b0 = shape a ->
  exists c, tmul a b0 = inr c /\ shape c = shape a.
Proof.
  intros Hb. unfold tmul, zip_with, broadcast_shapes.
  rewrite Hb, broadcast_rev_same, rev_involutive. simpl.
  eexists; split; reflexivity.
Qed.

(** *** A backward pass on a gradient of the output shape

    With the patch matrix of a forward pass cached and [input_shape]
    holding the shape of that pass's input, [backward] returns a gradient
    of that shape. *)
Lemma backward_ok (l : Conv) (g w xc : ndarray A) (ds : ndarray DS)
    (F N C Hx Wx kh kw : Z) :
  W l = Some w -> shape w = [F; C; kh; kw] ->
  X_col l = Some xc ->
  shape xc = [C * kh * kw;
              N * out_extent Hx kh (padding l) (stride l)
                * out_extent Wx kw (padding l) (stride l)] ->
  ds_cached l = Some ds ->
  input_shape l = Some [N; C; Hx; Wx] ->
  shape g = [N; F;
             out_extent Hx kh (padding l) (stride l);
             out_extent Wx kw (padding l) (stride l)] ->
  match activation l with
  | Some a => shape (act_derivative a g) = shape g
  | None => True
  end ->
  0 < F -> 0 <= C -> 0 <= kh -> 0 <= kw ->
  0 <= padding l -> 0 < stride l ->
  0 <= out_extent Hx kh (padding l) (stride l) ->
  0 <= out_extent Wx kw (padding l) (stride l) ->
  exists dX, outcome (backward g) l = inr dX /\ shape dX = [N; C; Hx; Wx].
Proof.
  intros HW Hw HX Hxcs Hds Hin Hg Hact HF HC Hkh Hkw Hp Hs Hoh How.
  set (oh := out_extent Hx kh (padding l) (stride l)) in *.
  set (ow := out_extent Wx kw (padding l) (stride l)) in *.
  assert (Hpg : exists pg,
             match activation l with
             | Some a => tmul g (act_derivative a g)
             | None => inr g
             end = inr pg /\ shape pg = [N; F; oh; ow]).
  { destruct (activation l) as [a|].
    - destruct (tmul_same_shape g (act_derivative a g) Hact) as (c & Hc & Hcs).
      exists c. split; [exact Hc|]. now rewrite Hcs.
    - exists g. split; [reflexivity|exact Hg]. }
  destruct Hpg as (pg & Hpg & Hpgs).
  destruct (sum_axes_023 pg N F oh ow Hpgs) as (db0 & Hdb0 & Hdb0s).
  assert (Hdb1 : reshape db0 [F; -1] = inr (mk_ndarray [F; 1] (data db0))).
  { apply reshape_row; [exact HF|]. rewrite Hdb0s. simpl. lia. }
  destruct (transpose_1230 pg N F oh ow Hpgs) as (pt & Hpt & Hpts).
  assert (Hpr : reshape pt [F; -1]
                = inr (mk_ndarray [F; oh * ow * N] (data pt))).
  { apply reshape_row; [exact HF|]. rewrite Hpts. simpl. lia. }
  set (pr := mk_ndarray [F; oh * ow * N] (data pt)) in *.
  destruct (matmul_shape pr (T xc) F (oh * ow * N) (C * kh * kw))
    as (dW0 & HdW0 & HdW0s).
  { reflexivity. }
  { rewrite shape_T, Hxcs. simpl. f_equal. lia. }
  assert (HdW1 : reshape dW0 (shape w) = inr (mk_ndarray (shape w) (data dW0))).
  { apply reshape_exact.
    - rewrite Hw. simpl.
      repeat (apply andb_true_iff; split); try reflexivity; apply Z.leb_le; lia.
    - rewrite HdW0s, Hw. simpl. lia. }
  assert (HWr : reshape w [F; -1]
                = inr (mk_ndarray [F; C * kh * kw] (data w))).
  { apply reshape_row; [exact HF|]. rewrite Hw. simpl. lia. }
  destruct (matmul_shape (T pr) (mk_ndarray [F; C * kh * kw] (data w))
              (oh * ow * N) F (C * kh * kw) eq_refl eq_refl)
    as (dXc & HdXc & HdXcs).
  destruct (col2im_indices_shape dXc ds N C Hx Wx kh kw (padding l) (stride l)
              Hkh Hkw Hp Hs Hoh How) as (dX & HdX & HdXs).
  { rewrite HdXcs. fold oh ow. simpl. lia. }
  exists dX. split; [|exact HdXs].
  unfold outcome, backward.
  rewrite (bind_attr_of _ _ _ _ w) by exact HW.
  rewrite (bind_lift _ _ _ (F, C, kh, kw)) by (rewrite Hw; reflexivity).
  cbv beta iota.
  rewrite bind_attr.
  rewrite (bind_lift _ _ _ _ Hpg).
  rewrite (bind_lift _ _ _ _ Hdb0).
  rewrite (bind_lift _ _ _ _ Hdb1).
  rewrite bind_assign.
  rewrite (bind_lift _ _ _ _ Hpt).
  rewrite (bind_lift _ _ _ _ Hpr).
  rewrite (bind_attr_of _ _ _ _ xc) by exact HX.
  rewrite (bind_lift _ _ _ _ HdW0).
  rewrite (bind_lift _ _ _ _ HdW1).
  rewrite bind_assign.
  rewrite (bind_lift _ _ _ _ HWr).
  rewrite (bind_lift _ _ _ _ HdXc).
  rewrite bind_attr.
  rewrite (bind_attr_of _ _ _ _ ds) by exact Hds.
  rewrite !bind_attr.
  cbn [padding stride input_shape set_dW set_db].
  rewrite Hin.
  rewrite (bind_lift _ _ _ _ HdX).
  reflexivity.
Qed.

(** X17.  A layer constructed with its input shape and connected as a first
    layer: after a forward pass on an input of that shape, [backward] on a
    gradient of the output shape returns a gradient of the input shape. *)
Lemma backward_shape_first_layer (l : Conv) (x g : ndarray A)
    (N C Hx Wx kh kw : Z) :
  input_shape l = Some [N; C; Hx; Wx] ->
  filter_extent (filter_size l) = inr (kh, kw) ->
  0 < nb_filter l -> 0 <= kh -> 0 <= kw ->
  0 < stride l -> 0 <= padding l ->
  0 <= N -> 0 <= C ->
  kh <= Hx + 2 * padding l -> kw <= Wx + 2 * padding l ->
  shape x = [N; C; Hx; Wx] ->
  shape g = [N; nb_filter l;
             out_extent Hx kh (padding l) (stride l);
             out_extent Wx kw (padding l) (stride l)] ->
  match activation l with
  | Some a => shape (act_derivative a g) = shape g
  | None => True
  end ->
  exists dX,
    outcome (backward g)
      (state_after (forward x) (state_after (connect_to None) l)) = inr dX /\
    shape dX = [N; C; Hx; Wx].
Proof.
  intros Hin Hfs HF Hkh Hkw Hs Hp HN HC Hfith Hfitw Hx0 Hg Hact.
  assert (Hc := connect_to_ok l None N C Hx Wx kh kw Hin Hfs
                  ltac:(lia) ltac:(lia) HC Hkh Hkw).
  rewrite !out_extent_floor in Hc.
  unfold state_after at 2. rewrite Hc. cbn [fst].
  pose proof (out_extent_pos Hx kh (padding l) (stride l) Hs Hfith) as Hoh.
  pose proof (out_extent_pos Wx kw (padding l) (stride l) Hs Hfitw) as How.
  match goal with
  | |- context [state_after (forward x) ?s] => set (l1 := s)
  end.
  destruct (forward_ok l1 x
              (mk_ndarray [nb_filter l; C; kh; kw]
                 (init l [nb_filter l; C; kh; kw]))
              (zeros [nb_filter l])
              (nb_filter l) N C Hx Wx kh kw N (nb_filter l)
              eq_refl eq_refl eq_refl eq_refl eq_refl Hx0
              HF HN Hkh Hkw Hp Hs
              (Z.lt_le_incl _ _ Hoh) (Z.lt_le_incl _ _ How))
    as (y & xc & Hy & _ & Hxcs).
  unfold state_after. rewrite Hy. cbn [fst].
  eapply (backward_ok _ g _ xc (data_subjects x) (nb_filter l) N C Hx Wx kh kw);
    try reflexivity; try assumption.
  - exact (Z.lt_le_incl _ _ Hoh).
  - exact (Z.lt_le_incl _ _ How).
Qed.

End Passes.

(** ** The layer's contract *)

Section Contract.
Context {A DS : Type} `{Element A DS}.

Local Abbreviation Conv := (Convolution A DS).

(** C2.  For a configuration with a positive filter count, non-negative
    kernel sides, positive stride and non-negative padding, and an input
    shape (N, C, H, W) whose padded extent holds the kernel, [connect_to]
    succeeds and stores the output shape
    (N, filters, (H+2p-kh)//s+1, (W+2p-kw)//s+1), and [forward] on any
    input of shape (N, C, H, W) returns a tensor of exactly that shape. *)
Theorem connect_forward_shape (l : Conv) (prev : option Layer.t)
    (N C Hx Wx kh kw : Z) :
  connect_source prev l = Some [N; C; Hx; Wx] ->
  filter_extent (filter_size l) = inr (kh, kw) ->
  0 < nb_filter l -> 0 <= kh -> 0 <= kw ->
  0 < stride l -> 0 <= padding l ->
  0 <= N -> 0 <= C ->
  kh <= Hx + 2 * padding l -> kw <= Wx + 2 * padding l ->
  let connected := state_after (connect_to prev) l in
  let expected := [N; nb_filter l;
                   (Hx + 2 * padding l - kh) / stride l + 1;
                   (Wx + 2 * padding l - kw) / stride l + 1] in
  outcome (connect_to prev) l = inr tt /\
  out_shape connected = Some expected /\
  forall x : ndarray A,
    shape x = [N; C; Hx; Wx] ->
    exists y, outcome (forward x) connected = inr y /\ shape y = expected.
Proof.
  intros Hsrc Hfs HF Hkh Hkw Hs Hp HN HC Hfith Hfitw connected expected.
  assert (Hc := connect_to_ok l prev N C Hx Wx kh kw Hsrc Hfs
                  ltac:(lia) ltac:(lia) HC Hkh Hkw).
  subst connected expected. unfold state_after, outcome. rewrite Hc.
  cbn [fst snd].
  rewrite !out_extent_floor.
  change ((Hx + 2 * padding l - kh) / stride l + 1)
    with (out_extent Hx kh (padding l) (stride l)).
  change ((Wx + 2 * padding l - kw) / stride l + 1)
    with (out_extent Wx kw (padding l) (stride l)).
  split; [reflexivity|]. split; [reflexivity|].
  intros x Hx0.
  pose proof (out_extent_pos Hx kh (padding l) (stride l) Hs Hfith) as Hoh.
  pose proof (out_extent_pos Wx kw (padding l) (stride l) Hs Hfitw) as How.
  destruct (forward_ok
              (set_b (Some (zeros [nb_filter l]))
                 (set_W (Some (mk_ndarray [nb_filter l; C; kh; kw]
                                 (init l [nb_filter l; C; kh; kw])))
                    (set_out_shape
                       (Some [N; nb_filter l;
                              out_extent Hx kh (padding l) (stride l);
                              out_extent Wx kw (padding l) (stride l)]) l)))
              x (mk_ndarray [nb_filter l; C; kh; kw]
                   (init l [nb_filter l; C; kh; kw]))
              (zeros [nb_filter l])
              (nb_filter l) N C Hx Wx kh kw N (nb_filter l)
              eq_refl eq_refl eq_refl eq_refl eq_refl Hx0
              HF HN Hkh Hkw Hp Hs
              (Z.lt_le_incl _ _ Hoh) (Z.lt_le_incl _ _ How))
    as (y & xc & Hy & Hys & _).
  exists y. rewrite Hy. split; [reflexivity|exact Hys].
Qed.

(** C7.  Without a predecessor and without an input shape given at
    construction, [connect_to] fails on its first assertion (the
    configuration error of the layer is Python's AssertionError); when an
    input shape is available, from the layer or from the predecessor,
    [connect_to] fails on its second assertion unless the shape has
    exactly four axes.  In both cases the layer is left as it was. *)
Theorem connect_requires_input_shape (l : Conv) :
  (input_shape l = None ->
   connect_to None l = (l, inl AssertionError)) /\
  (forall (prev : option Layer.t) (sh : list Z),
     connect_source prev l = Some sh ->
     zlength sh <> 4 ->
     connect_to prev l = (l, inl AssertionError)).
Proof.
  split.
  - intros Hnone. unfold connect_to.
    now rewrite bind_attr_of_none by exact Hnone.
  - intros prev sh Hsrc Hlen. unfold connect_to.
    rewrite (connect_to_source_some prev l _ _ Hsrc).
    destruct (Z.eqb_spec (zlength sh) 4) as [Heq|_]; [contradiction|].
    now rewrite bind_raise.
Qed.

(** C8.  Assigning to [params] a sequence whose length is not 2 fails on
    the assertion of the setter (the arity error of the layer is Python's
    AssertionError) and leaves the layer as it was; assigning a pair
    (w, b) succeeds and makes w the weights and b the bias. *)
Theorem set_params_arity (l : Conv) :
  (forall new_params : list (option (ndarray A)),
     zlength new_params <> 2 ->
     set_params new_params l = (l, inl AssertionError)) /\
  (forall w bias : option (ndarray A),
     outcome (set_params [w; bias]) l = inr tt /\
     W (state_after (set_params [w; bias]) l) = w /\
     b (state_after (set_params [w; bias]) l) = bias).
Proof.
  split.
  - intros new_params Hlen. unfold set_params.
    destruct (Z.eqb_spec (zlength new_params) 2) as [Heq|_]; [contradiction|].
    now rewrite bind_raise.
  - intros w bias. repeat split.
Qed.

(** C9.  A call to [forward], whether it returns or raises, leaves the
    weights W, the bias b, the gradients dW and db, the output shape and
    the configuration as they were: only [last_input], [ds_cached],
    [X_col] and [last_output] are assigned. *)
Theorem forward_frame (l : Conv) (input : ndarray A) :
  only_caches_written l (state_after (forward input) l).
Proof. exact (forward_only_caches input l). Qed.

(** C10.  Setting [params] to (w, b) and reading [params] back gives
    (w, b), and [grads] reads the same after the assignment as before. *)
Theorem params_round_trip (l : Conv) (w bias : option (ndarray A)) :
  outcome (set_params [w; bias]) l = inr tt /\
  params (state_after (set_params [w; bias]) l) = (w, bias) /\
  grads (state_after (set_params [w; bias]) l) = grads l.
Proof. repeat split. Qed.

End Contract.

(** ** Calls that raise *)

Section Raising.
Context {A DS : Type} `{Element A DS}.

Local Abbreviation Conv := (Convolution A DS).

(** Stepping through a method whose outcome is to be an exception: a
    fallible step either raises, which settles the goal, or returns and
    the next step is looked at. *)
Ltac raise_step :=
  match goal with
  | |- exists e, snd ((bind (assign _) _) _) = inl e => rewrite bind_assign
  | |- exists e, snd ((bind (attr _) _) _) = inl e => rewrite bind_attr
  | |- exists e, snd ((bind (lift ?r) _) _) = inl e =>
      let Hr := fresh "Hr" in
      destruct r as [?e|?x] eqn:Hr;
      [ rewrite (bind_lift_raise _ _ _ _ eq_refl); eexists; reflexivity
      | rewrite (bind_lift _ _ _ _ eq_refl) ]
  | |- exists e, snd ((bind (attr_of ?f _) _) ?s) = inl e =>
      first
        [ rewrite bind_attr_of_none
            by (match goal with Hn : _ = None |- _ => exact Hn end);
          eexists; reflexivity
        | let Hf := fresh "Hf" in
          destruct (f s) as [?x|] eqn:Hf;
          [ rewrite (bind_attr_of _ _ _ _ _ Hf)
          | rewrite (bind_attr_of_none _ _ _ _ Hf); eexists; reflexivity ] ]
  | |- exists e, snd ((match ?p with _ => _ end) _) = inl e => destruct p
  end.

Lemma backward_needs_X_col (l : Conv) (g : ndarray A) :
  X_col l = None ->
  exists e, outcome (backward g) l = inl e.
Proof.
  intros HX. unfold outcome, backward.
  repeat raise_step.
Qed.

Lemma connect_to_keeps_X_col (prev : option Layer.t) :
  keeps (fun s s' : Conv => X_col s' = X_col s) (connect_to prev).
Proof.
  set (R := fun s s' : Conv => X_col s' = X_col s).
  assert (Hr : forall s, R s s) by (intros s; reflexivity).
  assert (Ht : forall s1 s2 s3, R s1 s2 -> R s2 s3 -> R s1 s3).
  { unfold R. intros s1 s2 s3 H12 H23. now rewrite H23. }
  unfold connect_to, call_init.
  repeat match goal with
         | |- keeps _ (bind _ _) => apply (keeps_bind _ Ht); [|intros]
         | |- keeps _ (ret _) => apply (keeps_ret _ Hr)
         | |- keeps _ (raise _) => apply (keeps_raise _ Hr)
         | |- keeps _ (lift _) => apply (keeps_lift _ Hr)
         | |- keeps _ (attr _) => apply (keeps_attr _ Hr)
         | |- keeps _ (attr_of _ _) => apply (keeps_attr_of _ Hr)
         | |- keeps _ (assign _) => apply keeps_assign; intros; reflexivity
         | |- keeps _ (match ?p with _ => _ end) => destruct p
         end.
Qed.

(** C4, as the code has it.  On a layer on which [forward] has never run,
    [backward] raises instead of computing a gradient: on a freshly
    constructed layer an AttributeError, since there are no weights; on a
    freshly connected layer an exception too, at the latest the
    AttributeError on the missing patch matrix.  (The layer keeps no
    record of whether a forward pass has followed the last backward
    pass.) *)
Theorem backward_before_forward (nb_filter : Z) (filter_size : filter_size_t)
    (input_shape : option (list Z)) (stride padding : Z)
    (activation : option (Activation A)) (draw : list Z -> list A)
    (prev : option Layer.t) (g : ndarray A) :
  let fresh :=
    Convolution_init (DS := DS) nb_filter filter_size input_shape
      stride padding activation draw in
  outcome (backward g) fresh = inl AttributeError /\
  exists e, outcome (backward g) (state_after (connect_to prev) fresh) = inl e.
Proof.
  intros fresh. split.
  - reflexivity.
  - apply backward_needs_X_col.
    exact (connect_to_keeps_X_col prev fresh).
Qed.

Lemma unpack4_error (t : list Z) (e : exn) :
  unpack4 t = inl e -> e = ValueError.
Proof.
  destruct t as [|? [|? [|? [|? [|? ?]]]]]; simpl; congruence.
Qed.

(** C6, as the code has it.  On a connected layer, [forward] raises
    ValueError (the shape error of the array operations) when the input
    does not have four axes, and when it has four but its channel count
    differs from the input-channel axis of the weights (kernel sides
    positive: with an empty kernel the patch matrix has no rows whatever
    the channel count); on an input with the channel count, the height and
    the width the layer was connected with, whatever its batch size, and a
    configuration with a positive filter count, positive stride,
    non-negative padding and a kernel that fits the padded image, it
    returns. *)
Theorem forward_shape_errors (l0 l : Conv) (prev : option Layer.t)
    (x : ndarray A) :
  connect_to prev l0 = (l, inr tt) ->
  (zlength (shape x) <> 4 -> outcome (forward x) l = inl ValueError) /\
  (forall (w : ndarray A) (n c h wd kh kw : Z),
     W l = Some w ->
     shape x = [n; c; h; wd] ->
     znth (shape w) 1 <> c ->
     filter_extent (filter_size l) = inr (kh, kw) ->
     0 < kh -> 0 < kw ->
     outcome (forward x) l = inl ValueError) /\
  (forall N N' C Hx Wx kh kw : Z,
     connect_source prev l0 = Some [N; C; Hx; Wx] ->
     shape x = [N'; C; Hx; Wx] ->
     filter_extent (filter_size l) = inr (kh, kw) ->
     0 < nb_filter l -> 0 < stride l -> 0 <= padding l -> 0 <= N' ->
     kh <= Hx + 2 * padding l -> kw <= Wx + 2 * padding l ->
     exists y, outcome (forward x) l = inr y).
Proof.
  intros Hc.
  destruct (connect_to_inv l0 l prev Hc)
    as (N0 & C0 & H0 & W0 & kh0 & kw0
        & Hsrc & Hfs & Hs & HF & HC & Hkh & Hkw & ->).
  clear Hc.
  set (w0 := mk_ndarray [nb_filter l0; C0; kh0; kw0]
               (init l0 [nb_filter l0; C0; kh0; kw0])).
  set (l := set_b _ _).
  assert (Hstart : forward x l =
    ('(n_x, d_x, h_x, w_x) <- lift (unpack4 (shape x)) ;;
     assign (set_ds_cached (Some (data_subjects x))) ;;;
     xc <- lift (im2col_indices x kh0 kw0 (padding l0) (stride l0)) ;;
     assign (set_X_col (Some xc)) ;;;
     W_col <- lift (reshape w0 [nb_filter l0; -1]) ;;
     out <- lift (matmul (T xc) (T W_col)) ;;
     bias <- attr_of b TypeError ;;
     out <- lift (tadd out bias) ;;
     out <- lift (reshape out
                    [nb_filter l0;
                     (H0 - kh0 + 2 * padding l0) / stride l0 + 1;
                     (W0 - kw0 + 2 * padding l0) / stride l0 + 1; n_x]) ;;
     out <- lift (transpose out [3; 0; 1; 2]) ;;
     act <- attr activation ;;
     assign (set_last_output
               (Some match act with
                     | Some a => act_forward a out
                     | None => out
                     end)) ;;;
     ret out) (set_last_input (Some x) l)).
  { unfold forward. rewrite bind_assign.
    rewrite (bind_attr_of _ _ _ _ w0) by reflexivity.
    rewrite (bind_lift _ _ _ (nb_filter l0, C0, kh0, kw0)) by reflexivity.
    cbv beta iota.
    destruct (unpack4 (shape x)) as [e|[[[n_x d_x] h_x] w_x]].
    - reflexivity.
    - rewrite !(bind_lift _ _ _ (n_x, d_x, h_x, w_x)) by reflexivity.
      cbv beta iota.
      erewrite bind_attr_of by reflexivity.
      cbn [unpack4].
      rewrite (bind_lift _ _ _ _ eq_refl). cbv beta iota.
      rewrite bind_assign, !bind_attr. reflexivity. }
  split; [|split].
  - (* not four axes *)
    intros Hrank. unfold outcome. rewrite Hstart.
    destruct (unpack4 (shape x)) as [e|[[[n_x d_x] h_x] w_x]] eqn:Hu.
    + rewrite (bind_lift_raise _ _ _ _ eq_refl).
      now rewrite (unpack4_error _ _ Hu).
    + apply unpack4_inr in Hu. rewrite Hu in Hrank.
      now contradiction Hrank.
  - (* another channel count *)
    intros w n c h wd kh kw HW Hx0 Hch Hfs' Hkhp Hkwp.
    assert (w = w0) as -> by (cbn in HW; congruence).
    cbn in Hch.
    assert (kh = kh0 /\ kw = kw0) as [-> ->].
    { cbn in Hfs'. rewrite Hfs in Hfs'. split; congruence. }
    unfold outcome. rewrite Hstart, Hx0.
    rewrite (bind_lift _ _ _ (n, c, h, wd)) by reflexivity. cbv beta iota.
    rewrite bind_assign.
    destruct (im2col_indices x kh0 kw0 (padding l0) (stride l0))
      as [e|xc] eqn:Hxc.
    { rewrite (bind_lift_raise _ _ _ _ eq_refl).
      now rewrite (im2col_indices_error _ _ _ _ _ _ Hs Hxc). }
    rewrite (bind_lift _ _ _ _ eq_refl), bind_assign.
    destruct (im2col_indices_rows _ _ _ _ _ _ _ _ _ _ Hx0 Hxc) as (cols & Hxcs).
    destruct (reshape w0 [nb_filter l0; -1]) as [e|W_col] eqn:HWc.
    { rewrite (bind_lift_raise _ _ _ _ eq_refl).
      now rewrite (reshape_error _ _ _ HWc). }
    rewrite (bind_lift _ _ _ _ eq_refl).
    destruct (reshape_row_inv _ _ _ HWc) as [HFpos HWcs].
    rewrite (bind_lift_raise _ _ _ ValueError); [reflexivity|].
    apply (matmul_mismatch _ _ cols (c * kh0 * kw0)
             (size (shape w0) / nb_filter l0) (nb_filter l0)).
    + rewrite shape_T, Hxcs. reflexivity.
    + rewrite shape_T, HWcs. reflexivity.
    + subst w0. cbn [shape size fold_right].
      replace (nb_filter l0 * (C0 * (kh0 * (kw0 * 1))))
        with (C0 * kh0 * kw0 * nb_filter l0) by lia.
      rewrite Z.div_mul by lia.
      intros Heq. apply Hch.
      apply Z.mul_cancel_r in Heq; [|lia].
      apply Z.mul_cancel_r in Heq; [|lia].
      rewrite Heq. reflexivity.
  - (* the image of the connection, any batch *)
    intros N N' C Hx Wx kh kw Hsrc' Hx0 Hfs' HFpos Hspos Hp HN Hfith Hfitw.
    rewrite Hsrc in Hsrc'. injection Hsrc' as -> -> -> ->.
    assert (kh = kh0 /\ kw = kw0) as [-> ->].
    { cbn in Hfs'. rewrite Hfs in Hfs'. split; congruence. }
    cbn in HFpos, Hspos, Hp, Hfith, Hfitw.
    pose proof (out_extent_pos Hx kh0 (padding l0) (stride l0) Hspos Hfith)
      as Hoh.
    pose proof (out_extent_pos Wx kw0 (padding l0) (stride l0) Hspos Hfitw)
      as How.
    assert (Hout : out_shape l
                   = Some [N; nb_filter l0;
                           out_extent Hx kh0 (padding l) (stride l);
                           out_extent Wx kw0 (padding l) (stride l)]).
    { subst l. cbn [out_shape set_b set_W set_out_shape padding stride].
      now rewrite !out_extent_floor. }
    destruct (forward_ok l x w0 (zeros [nb_filter l0])
                (nb_filter l0) N' C Hx Wx kh0 kw0 N (nb_filter l0)
                eq_refl eq_refl eq_refl eq_refl Hout Hx0
                HFpos HN Hkh Hkw Hp Hspos
                (Z.lt_le_incl _ _ Hoh) (Z.lt_le_incl _ _ How))
      as (y & xc & Hy & _).
    exists y. unfold outcome. now rewrite Hy.
Qed.

End Raising.

(** ** The layer at work on concrete tensors *)

(** C1.  With the rectifier configured and an input whose patches sum to
    -5, [forward] returns the value of the multiply, reshape and transpose
    pipeline, -5, which is also what the layer without activation returns;
    the activated value, 0, is stored in [last_output] and not returned. *)
Theorem forward_returns_before_activation :
  outcome (forward x_negative) plain_layer
    = inr (mk_ndarray [1; 1; 1; 1] [-5]) /\
  outcome (forward x_negative) relu_layer
    = inr (mk_ndarray [1; 1; 1; 1] [-5]) /\
  act_forward relu (mk_ndarray [1; 1; 1; 1] [-5])
    = mk_ndarray [1; 1; 1; 1] [0] /\
  last_output (state_after (forward x_negative) relu_layer)
    = Some (mk_ndarray [1; 1; 1; 1] [0]).
Proof. repeat split. Qed.

(** C3.  A layer constructed without input shape and connected to a
    predecessor of output shape (1, 1, 2, 2) runs [forward], and then
    [backward] raises TypeError instead of returning a gradient of shape
    (1, 1, 2, 2): the target shape of the patch scatter is [input_shape],
    which only the constructor assigns.  The same configuration constructed
    with its input shape returns a gradient of that shape. *)
Theorem backward_after_predecessor_raises :
  connect_source (Some predecessor) new_inner_layer = Some [1; 1; 2; 2] /\
  out_shape inner_layer = Some (shape g_negative) /\
  outcome (forward x_positive) inner_layer
    = inr (mk_ndarray [1; 1; 1; 1] [10]) /\
  outcome (backward g_negative) (state_after (forward x_positive) inner_layer)
    = inl TypeError /\
  outcome (backward g_negative) (state_after (forward x_positive) plain_layer)
    = inr (mk_ndarray [1; 1; 2; 2] [-2; -2; -2; -2]).
Proof. repeat split. Qed.

(** C5.  After a forward pass whose value before activation is 10, the
    derivative of the rectifier there is 1, so the incoming gradient -2
    should pass unchanged, as it does through the layer without activation.
    [backward] evaluates the derivative at the incoming gradient itself,
    where it is 0, and every gradient it computes is 0. *)
Theorem backward_derivative_at_gradient :
  outcome (forward x_positive) relu_layer
    = inr (mk_ndarray [1; 1; 1; 1] [10]) /\
  tmul g_negative (act_derivative relu (mk_ndarray [1; 1; 1; 1] [10]))
    = inr g_negative /\
  tmul g_negative (act_derivative relu g_negative)
    = inr (mk_ndarray [1; 1; 1; 1] [0]) /\
  grads (state_after (backward g_negative)
           (state_after (forward x_positive) relu_layer))
    = (Some (mk_ndarray [1; 1; 2; 2] [0; 0; 0; 0]),
       Some (mk_ndarray [1; 1] [0])) /\
  outcome (backward g_negative) (state_after (forward x_positive) relu_layer)
    = inr (mk_ndarray [1; 1; 2; 2] [0; 0; 0; 0]) /\
  grads (state_after (backward g_negative)
           (state_after (forward x_positive) plain_layer))
    = (Some (mk_ndarray [1; 1; 2; 2] [-2; -4; -6; -8]),
       Some (mk_ndarray [1; 1] [-2])).
Proof. repeat split. Qed.

(** Against C4 as stated: after one forward pass, a second [backward] with
    no forward pass in between returns a gradient. *)
Lemma backward_twice_returns :
  outcome (backward g_negative)
    (state_after (backward g_negative)
       (state_after (forward x_positive) plain_layer))
    = inr (mk_ndarray [1; 1; 2; 2] [-2; -2; -2; -2]).
Proof. reflexivity. Qed.

(** Against C6 as stated, on both of its halves.  An input with four
    axes and the channel count of the weights, but a larger image than the
    layer was connected with, raises the same ValueError; and on a layer
    connected with an empty kernel (filter size 0), an input with four axes
    whose channel count, 2, differs from the input-channel axis of the
    weights, 1, does not raise: [forward] returns. *)
Lemma forward_shape_claim_fails :
  (zlength (shape x_wide) = 4 /\
   (exists w, W plain_layer = Some w /\
              znth (shape w) 1 = znth (shape x_wide) 1) /\
   outcome (forward x_wide) plain_layer = inl ValueError) /\
  (outcome (connect_to None) new_empty_kernel_layer = inr tt /\
   zlength (shape x_two_channels) = 4 /\
   (exists w, W empty_kernel_layer = Some w /\
              shape w = [1; 1; 0; 0] /\
              znth (shape w) 1 <> znth (shape x_two_channels) 1) /\
   outcome (forward x_two_channels) empty_kernel_layer
     = inr (mk_ndarray [1; 1; 3; 3] [0; 0; 0; 0; 0; 0; 0; 0; 0])).
Proof.
  split.
  - split; [reflexivity|]. split; [|reflexivity].
    eexists. split; reflexivity.
  - split; [reflexivity|]. split; [reflexivity|]. split; [|reflexivity].
    eexists. split; [reflexivity|]. split; [reflexivity|].
    vm_compute. discriminate.
Qed.

(** ** The general statements at concrete layers *)

Lemma connect_forward_shape_witness :
  outcome (connect_to None) new_relu_layer = inr tt /\
  out_shape relu_layer = Some [1; 1; 1; 1] /\
  forall x : ndarray Z,
    shape x = [1; 1; 2; 2] ->
    exists y, outcome (forward x) relu_layer = inr y /\ shape y = [1; 1; 1; 1].
Proof.
  apply (connect_forward_shape new_relu_layer None 1 1 2 2 2 2);
    first [reflexivity | cbn; lia].
Defined.

Lemma connect_requires_input_shape_witness :
  connect_to None new_inner_layer = (new_inner_layer, inl AssertionError) /\
  connect_to None docstring_layer = (docstring_layer, inl AssertionError).
Proof.
  split.
  - apply (proj1 (connect_requires_input_shape new_inner_layer)).
    reflexivity.
  - apply (proj2 (connect_requires_input_shape docstring_layer)
             None [3; 128; 128]).
    + reflexivity.
    + unfold zlength. simpl. lia.
Defined.

Lemma set_params_arity_witness :
  set_params [Some x_flat] plain_layer = (plain_layer, inl AssertionError) /\
  W (state_after (set_params [Some x_flat; None]) plain_layer) = Some x_flat.
Proof.
  split.
  - apply (proj1 (set_params_arity plain_layer)).
    unfold zlength. simpl. lia.
  - apply (proj2 (set_params_arity plain_layer) (Some x_flat) None).
Defined.

Lemma forward_shape_errors_witness :
  outcome (forward x_flat) plain_layer = inl ValueError /\
  outcome (forward x_two_channels) plain_layer = inl ValueError /\
  (exists y, outcome (forward x_positive) plain_layer = inr y) /\
  (exists y, outcome (forward x_batch) plain_layer = inr y).
Proof.
  assert (Hc : connect_to None new_plain_layer = (plain_layer, inr tt))
    by reflexivity.
  split; [|split; [|split]].
  - apply (proj1 (forward_shape_errors _ _ _ x_flat Hc)).
    unfold zlength. simpl. lia.
  - refine (proj1 (proj2 (forward_shape_errors _ _ _ x_two_channels Hc))
              (mk_ndarray [1; 1; 2; 2] [1; 1; 1; 1]) 1 2 2 2 2 2
              eq_refl eq_refl _ eq_refl _ _);
      first [lia | vm_compute; intro; discriminate].
  - refine (proj2 (proj2 (forward_shape_errors _ _ _ x_positive Hc))
              1 1 1 2 2 2 2 eq_refl eq_refl eq_refl _ _ _ _ _ _);
      first [lia | vm_compute; first [reflexivity | intro; discriminate]].
  - refine (proj2 (proj2 (forward_shape_errors _ _ _ x_batch Hc))
              1 3 1 2 2 2 2 eq_refl eq_refl eq_refl _ _ _ _ _ _);
      first [lia | vm_compute; first [reflexivity | intro; discriminate]].
Defined.

(** ** More of the layer's behaviour *)

Section Behaviour.
Context {A DS : Type} `{Element A DS}.

Local Abbreviation Conv := (Convolution A DS).
Local Abbreviation M := (M A DS).

(** Showing that a method relates the layer before and after by a reflexive
    and transitive relation, one step at a time; [fin] settles the
    assignments. *)
Ltac keeps_steps Hr Ht fin :=
  repeat match goal with
         | |- keeps _ (bind _ _) => apply (keeps_bind _ Ht); [|intros]
         | |- keeps _ (ret _) => apply (keeps_ret _ Hr)
         | |- keeps _ (raise _) => apply (keeps_raise _ Hr)
         | |- keeps _ (lift _) => apply (keeps_lift _ Hr)
         | |- keeps _ (attr _) => apply (keeps_attr _ Hr)
         | |- keeps _ (attr_of _ _) => apply (keeps_attr_of _ Hr)
         | |- keeps _ (assign _) => apply keeps_assign; intros; fin
         | |- keeps _ (match ?p with _ => _ end) => destruct p
         end.

Ltac split_frame :=
  repeat match goal with
         | H : _ /\ _ |- _ => destruct H
         end;
  repeat split; etransitivity; eassumption.

(** X1.  Whatever its outcome, [connect_to] assigns only [out_shape], [W]
    and [b]: the configuration, the gradients and the caches of an earlier
    pass stay as they were. *)
Theorem connect_to_frame (prev : option Layer.t) (l : Conv) :
  only_connection_written l (state_after (connect_to prev) l).
Proof.
  assert (Hr : forall s : Conv, only_connection_written s s)
    by (intros s; unfold only_connection_written; repeat split).
  assert (Ht : forall s1 s2 s3 : Conv,
             only_connection_written s1 s2 -> only_connection_written s2 s3 ->
             only_connection_written s1 s3)
    by (unfold only_connection_written; intros s1 s2 s3 H12 H23; split_frame).
  revert l. change (keeps only_connection_written (connect_to prev)).
  unfold connect_to, call_init.
  keeps_steps Hr Ht ltac:(unfold only_connection_written; repeat split).
Qed.

(** X2.  Whatever its outcome, [backward] assigns only [dW] and [db]: the
    weights, the bias, the output shape, the configuration and the caches
    of the forward pass stay as they were. *)
Theorem backward_frame (g : ndarray A) (l : Conv) :
  only_grads_written l (state_after (backward g) l).
Proof.
  assert (Hr : forall s : Conv, only_grads_written s s)
    by (intros s; unfold only_grads_written; repeat split).
  assert (Ht : forall s1 s2 s3 : Conv,
             only_grads_written s1 s2 -> only_grads_written s2 s3 ->
             only_grads_written s1 s3)
    by (unfold only_grads_written; intros s1 s2 s3 H12 H23; split_frame).
  revert l. change (keeps only_grads_written (backward g)).
  unfold backward.
  keeps_steps Hr Ht ltac:(unfold only_grads_written; repeat split).
Qed.

(** Stepping through a call that is known to have returned: a step that
    could have raised did not. *)
Ltac returned_step Hc :=
  match type of Hc with
  | (bind (assign _) _) _ = _ => rewrite bind_assign in Hc
  | (bind (attr _) _) _ = _ => rewrite bind_attr in Hc
  | (bind (lift ?r) _) _ = _ =>
      let Hr := fresh "Hr" in
      destruct r as [?e|?x] eqn:Hr;
      [ rewrite (bind_lift_raise _ _ _ _ eq_refl) in Hc; discriminate Hc
      | rewrite (bind_lift _ _ _ _ eq_refl) in Hc ]
  | (bind (attr_of ?f _) _) ?s = _ =>
      let Hf := fresh "Hf" in
      destruct (f s) as [?x|] eqn:Hf;
      [ rewrite (bind_attr_of _ _ _ _ _ Hf) in Hc
      | rewrite (bind_attr_of_none _ _ _ _ Hf) in Hc; discriminate Hc ]
  | (match ?p with _ => _ end) _ = _ => destruct p
  end.

(** What a [forward] call that returns has gone through. *)
Lemma forward_inv (l l' : Conv) (x y : ndarray A) :
  forward x l = (l', inr y) ->
  exists (w bias xc W_col o1 o2 o3 : ndarray A)
         (F C kh kw n c h wd n0 f0 oh ow : Z),
    W l = Some w /\ shape w = [F; C; kh; kw] /\
    shape x = [n; c; h; wd] /\
    out_shape l = Some [n0; f0; oh; ow] /\
    im2col_indices x kh kw (padding l) (stride l) = inr xc /\
    reshape w [F; -1] = inr W_col /\
    matmul (T xc) (T W_col) = inr o1 /\
    b l = Some bias /\
    tadd o1 bias = inr o2 /\
    reshape o2 [F; oh; ow; n] = inr o3 /\
    transpose o3 [3; 0; 1; 2] = inr y /\
    l' = set_last_output
           (Some match activation l with
                 | Some a => act_forward a y
                 | None => y
                 end)
           (set_X_col (Some xc)
              (set_ds_cached (Some (data_subjects x))
                 (set_last_input (Some x) l))).
Proof.
  intros Hc. unfold forward in Hc.
  repeat returned_step Hc.
  injection Hc as <- <-.
  cbn [W b out_shape padding stride set_last_input set_ds_cached set_X_col] in *.
  repeat match goal with
         | Hu : unpack4 _ = inr _ |- _ => apply unpack4_inr in Hu
         end.
  subst.
  do 7 eexists. do 12 eexists.
  repeat split; try eassumption; reflexivity.
Qed.

(** X3.  [forward] assigns its input to [last_input] before anything can
    fail, so the input is cached whatever the outcome; when the call
    returns, [ds_cached] holds the data subjects of the input and [X_col]
    the patch matrix extracted from it with the kernel sides of the
    weights and the layer's padding and stride. *)
Theorem forward_caches (l : Conv) (x : ndarray A) :
  last_input (state_after (forward x) l) = Some x /\
  forall y : ndarray A,
    outcome (forward x) l = inr y ->
    ds_cached (state_after (forward x) l) = Some (data_subjects x) /\
    exists (w xc : ndarray A) (F C kh kw : Z),
      W l = Some w /\ shape w = [F; C; kh; kw] /\
      im2col_indices x kh kw (padding l) (stride l) = inr xc /\
      X_col (state_after (forward x) l) = Some xc.
Proof.
  split.
  - assert (Hr : forall s : Conv, keeps_last_input s s)
      by (intros s; reflexivity).
    assert (Ht : forall s1 s2 s3 : Conv,
               keeps_last_input s1 s2 -> keeps_last_input s2 s3 ->
               keeps_last_input s1 s3)
      by (unfold keeps_last_input; intros s1 s2 s3 H12 H23; congruence).
    unfold state_after, forward. rewrite bind_assign.
    match goal with
    | |- last_input (fst (?m ?s)) = _ =>
        assert (K : keeps keeps_last_input m)
          by (keeps_steps Hr Ht ltac:(reflexivity));
        exact (K s)
    end.
  - intros y Hy. unfold outcome, state_after in *.
    destruct (forward x l) as [l' r] eqn:Hc. cbn [fst snd] in *. subst r.
    destruct (forward_inv l l' x y Hc)
      as (w & bias & xc & W_col & o1 & o2 & o3
          & F & C & kh & kw & n & c & h & wd & n0 & f0 & oh & ow
          & HW & Hw & _ & _ & Hxc & _ & _ & _ & _ & _ & _ & ->).
    split; [reflexivity|].
    exists w, xc, F, C, kh, kw. repeat split; assumption.
Qed.

(** X4.  A connected layer takes any batch size: on an input with the
    channels, height and width the layer was connected with and any number
    N' of images, [forward] returns a tensor of shape
    (N', filters, out_h, out_w), whatever batch size the layer was
    connected with. *)
Theorem forward_any_batch (l : Conv) (prev : option Layer.t)
    (x : ndarray A) (N N' C Hx Wx kh kw : Z) :
  connect_source prev l = Some [N; C; Hx; Wx] ->
  filter_extent (filter_size l) = inr (kh, kw) ->
  0 < nb_filter l -> 0 <= kh -> 0 <= kw ->
  0 < stride l -> 0 <= padding l -> 0 <= C ->
  kh <= Hx + 2 * padding l -> kw <= Wx + 2 * padding l ->
  shape x = [N'; C; Hx; Wx] -> 0 <= N' ->
  exists y,
    outcome (forward x) (state_after (connect_to prev) l) = inr y /\
    shape y = [N'; nb_filter l;
               out_extent Hx kh (padding l) (stride l);
               out_extent Wx kw (padding l) (stride l)].
Proof.
  intros Hsrc Hfs HF Hkh Hkw Hs Hp HC Hfith Hfitw Hx0 HN.
  assert (Hc := connect_to_ok l prev N C Hx Wx kh kw Hsrc Hfs
                  ltac:(lia) ltac:(lia) HC Hkh Hkw).
  rewrite !out_extent_floor in Hc.
  unfold state_after. rewrite Hc. cbn [fst].
  pose proof (out_extent_pos Hx kh (padding l) (stride l) Hs Hfith) as Hoh.
  pose proof (out_extent_pos Wx kw (padding l) (stride l) Hs Hfitw) as How.
  match goal with
  | |- context [outcome (forward x) ?s] => set (l1 := s)
  end.
  destruct (forward_ok l1 x
              (mk_ndarray [nb_filter l; C; kh; kw]
                 (init l [nb_filter l; C; kh; kw]))
              (zeros [nb_filter l])
              (nb_filter l) N' C Hx Wx kh kw N (nb_filter l)
              eq_refl eq_refl eq_refl eq_refl eq_refl Hx0
              HF HN Hkh Hkw Hp Hs
              (Z.lt_le_incl _ _ Hoh) (Z.lt_le_incl _ _ How))
    as (y & xc & Hy & Hys & _).
  exists y. unfold outcome. rewrite Hy. split; [reflexivity|exact Hys].
Qed.

(** The steps of [connect_to] up to the dispatch on the filter size, for a
    source shape with four axes. *)
Lemma connect_to_upto_filter (l : Conv) (prev : option Layer.t)
    (N C Hx Wx : Z) :
  connect_source prev l = Some [N; C; Hx; Wx] ->
  connect_to prev l =
    ('(filter_height, filter_width) <- lift (filter_extent (filter_size l)) ;;
     qh <- lift (floordiv (Hx - filter_height + 2 * padding l) (stride l)) ;;
     qw <- lift (floordiv (Wx - filter_width + 2 * padding l) (stride l)) ;;
     assign (set_out_shape (Some [N; nb_filter l; qh + 1; qw + 1])) ;;;
     w <- call_init [nb_filter l; C; filter_height; filter_width] ;;
     assign (set_W (Some w)) ;;;
     z <- lift (np_zeros [nb_filter l]) ;;
     assign (set_b (Some z))) l.
Proof.
  intros Hsrc. unfold connect_to.
  rewrite (connect_to_source_some prev l _ _ Hsrc).
  change (zlength [N; C; Hx; Wx] =? 4) with true. cbv iota.
  rewrite bind_ret.
  rewrite (bind_lift _ _ _ (N, C, Hx, Wx)) by reflexivity. cbv beta iota.
  rewrite bind_attr.
  destruct (filter_extent (filter_size l)) as [e|[kh kw]].
  - reflexivity.
  - rewrite !(bind_lift _ _ _ (kh, kw)) by reflexivity. cbv beta iota.
    rewrite !bind_attr. reflexivity.
Qed.

(** X5.  With an input shape of four axes at hand, [connect_to] raises
    NotImplementedError when the filter size is neither an int nor a
    tuple, and ValueError when it is a tuple that does not have exactly two
    items; in both cases nothing has been assigned. *)
Theorem connect_to_filter_size_errors (l : Conv) (prev : option Layer.t)
    (sh : list Z) :
  connect_source prev l = Some sh ->
  zlength sh = 4 ->
  (filter_size l = FilterOther ->
   connect_to prev l = (l, inl NotImplementedError)) /\
  (forall t : list Z,
     filter_size l = FilterTuple t ->
     zlength t <> 2 ->
     connect_to prev l = (l, inl ValueError)).
Proof.
  intros Hsrc Hlen.
  apply zlength_4 in Hlen as (N & C & Hx & Wx & ->).
  rewrite (connect_to_upto_filter l prev N C Hx Wx Hsrc).
  split.
  - intros ->. reflexivity.
  - intros t -> Ht.
    assert (Hu : unpack2 t = inl ValueError).
    { destruct t as [|? [|? [|? ?]]]; try reflexivity.
      now contradiction Ht. }
    cbn [filter_extent]. now rewrite Hu.
Qed.

(** X6.  With an input shape of four axes and a filter size that is an int
    or a pair, a stride of 0 makes [connect_to] raise ZeroDivisionError,
    and nothing has been assigned. *)
Theorem connect_to_zero_stride (l : Conv) (prev : option Layer.t)
    (sh : list Z) (kh kw : Z) :
  connect_source prev l = Some sh ->
  zlength sh = 4 ->
  filter_extent (filter_size l) = inr (kh, kw) ->
  stride l = 0 ->
  connect_to prev l = (l, inl ZeroDivisionError).
Proof.
  intros Hsrc Hlen Hfs Hs.
  apply zlength_4 in Hlen as (N & C & Hx & Wx & ->).
  rewrite (connect_to_upto_filter l prev N C Hx Wx Hsrc), Hfs.
  rewrite (bind_lift _ _ _ (kh, kw)) by reflexivity. cbv beta iota.
  rewrite Hs. reflexivity.
Qed.

(** X7.  A predecessor takes precedence over the layer's own input shape:
    when the predecessor has no output shape yet, [connect_to] raises
    TypeError (on the length of None), whether or not the layer was
    constructed with an input shape, and nothing has been assigned. *)
Theorem connect_to_unconnected_predecessor (l : Conv) (prev : Layer.t) :
  Layer.out_shape prev = None ->
  connect_to (Some prev) l = (l, inl TypeError).
Proof.
  intros Hnone. unfold connect_to. rewrite Hnone. reflexivity.
Qed.

(** Two runs of one method on layers that agree on all it reads: the runs
    branch alike, so the scrutinee of the first run's next branch settles
    both. *)
Ltac same_outcome :=
  cbn [fst snd W dW b db out_shape last_output last_input X_col ds_cached
       nb_filter filter_size input_shape stride padding init activation
       set_last_input set_ds_cached set_X_col set_last_output set_db set_dW];
  repeat (match goal with
          | |- context [match ?t with _ => _ end] =>
              lazymatch t with
              | context [match _ with _ => _ end] => fail
              | _ => destruct t
              end
          end;
          cbn [fst snd W dW b db out_shape last_output last_input X_col
               ds_cached nb_filter filter_size input_shape stride padding
               init activation set_last_input set_ds_cached set_X_col
               set_last_output set_db set_dW]);
  reflexivity.

(** The outcome of [forward] is a function of the weights, the bias, the
    output shape, the padding and the stride. *)
Lemma forward_outcome_ext (l1 l2 : Conv) (x : ndarray A) :
  W l1 = W l2 -> b l1 = b l2 -> out_shape l1 = out_shape l2 ->
  padding l1 = padding l2 -> stride l1 = stride l2 ->
  outcome (forward x) l1 = outcome (forward x) l2.
Proof.
  intros HW Hb Ho Hp Hs.
  destruct l1, l2. cbn in HW, Hb, Ho, Hp, Hs. subst.
  unfold outcome, forward, bind, assign, attr_of, attr, lift, ret.
  same_outcome.
Qed.

(** The outcome of [backward] is a function of the weights, the
    activation, the cached patch matrix and data subjects, the input
    shape, the padding and the stride. *)
Lemma backward_outcome_ext (l1 l2 : Conv) (g : ndarray A) :
  W l1 = W l2 -> activation l1 = activation l2 ->
  X_col l1 = X_col l2 -> ds_cached l1 = ds_cached l2 ->
  input_shape l1 = input_shape l2 ->
  padding l1 = padding l2 -> stride l1 = stride l2 ->
  outcome (backward g) l1 = outcome (backward g) l2.
Proof.
  intros HW Ha HX Hd Hi Hp Hs.
  destruct l1, l2. cbn in HW, Ha, HX, Hd, Hi, Hp, Hs. subst.
  unfold outcome, backward, bind, assign, attr_of, attr, lift, ret.
  same_outcome.
Qed.

(** X8.  What [forward] returns or raises on an input does not depend on
    the passes that came before: an earlier [forward] or [backward] call on
    any tensor, whatever its own outcome, leaves the outcome the same. *)
Theorem forward_ignores_earlier_passes (l : Conv) (x x' g : ndarray A) :
  outcome (forward x) (state_after (forward x') l) = outcome (forward x) l /\
  outcome (forward x) (state_after (backward g) l) = outcome (forward x) l.
Proof.
  split.
  - destruct (forward_only_caches x' l)
      as (_ & _ & _ & Hs & Hp & HW & _ & Hb & _ & Ho & _).
    now apply forward_outcome_ext.
  - destruct (backward_frame g l)
      as (_ & _ & _ & Hs & Hp & HW & Hb & Ho & _).
    now apply forward_outcome_ext.
Qed.

(** X9.  [backward] neither reads the gradients nor uses up the caches of
    the forward pass: after any [backward] call, whatever its outcome, a
    further [backward] returns or raises exactly what it would have
    without the first one. *)
Theorem backward_repeatable (l : Conv) (g g' : ndarray A) :
  outcome (backward g) (state_after (backward g') l) = outcome (backward g) l.
Proof.
  destruct (backward_frame g' l)
    as (_ & _ & Hi & Hs & Hp & HW & _ & _ & _ & _ & HX & Hd & _ & Ha).
  now apply backward_outcome_ext.
Qed.

(** X10.  The setter of [params] does not look at the weights it is given:
    any pair is accepted, and the next pass fails on it.  After weights
    that do not have four axes, [forward] and [backward] raise ValueError;
    after None as weights they raise AttributeError. *)
Theorem set_params_unvalidated (l : Conv) (bias : option (ndarray A))
    (x : ndarray A) :
  (forall w : ndarray A,
     zlength (shape w) <> 4 ->
     let l' := state_after (set_params [Some w; bias]) l in
     outcome (forward x) l' = inl ValueError /\
     outcome (backward x) l' = inl ValueError) /\
  (let l' := state_after (set_params [None; bias]) l in
   outcome (forward x) l' = inl AttributeError /\
   outcome (backward x) l' = inl AttributeError).
Proof.
  split.
  - intros w Hrank l'. subst l'.
    assert (Hu : unpack4 (shape w) = inl ValueError).
    { destruct (unpack4 (shape w)) as [e|[[[a0 b0] c0] d0]] eqn:Hu.
      - now rewrite (unpack4_error _ _ Hu).
      - apply unpack4_inr in Hu. rewrite Hu in Hrank.
        now contradiction Hrank. }
    split.
    + unfold outcome, forward. rewrite bind_assign.
      rewrite (bind_attr_of _ _ _ _ w) by reflexivity.
      now rewrite (bind_lift_raise _ _ _ _ Hu).
    + unfold outcome, backward.
      rewrite (bind_attr_of _ _ _ _ w) by reflexivity.
      now rewrite (bind_lift_raise _ _ _ _ Hu).
  - split; reflexivity.
Qed.

(** A backward pass on a gradient of the expected shape, step by step, with
    the layer it leaves. *)
Lemma backward_returns (l : Conv) (g w xc : ndarray A) (ds : ndarray DS)
    (F N C Hx Wx kh kw : Z) :
  W l = Some w -> shape w = [F; C; kh; kw] ->
  X_col l = Some xc ->
  shape xc = [C * kh * kw;
              N * out_extent Hx kh (padding l) (stride l)
                * out_extent Wx kw (padding l) (stride l)] ->
  ds_cached l = Some ds ->
  input_shape l = Some [N; C; Hx; Wx] ->
  shape g = [N; F;
             out_extent Hx kh (padding l) (stride l);
             out_extent Wx kw (padding l) (stride l)] ->
  match activation l with
  | Some a => shape (act_derivative a g) = shape g
  | None => True
  end ->
  0 < F -> 0 <= C -> 0 <= kh -> 0 <= kw ->
  0 <= padding l -> 0 < stride l ->
  0 <= out_extent Hx kh (padding l) (stride l) ->
  0 <= out_extent Wx kw (padding l) (stride l) ->
  exists dX dw dbias,
    backward g l = (set_dW (Some dw) (set_db (Some dbias) l), inr dX) /\
    shape dX = [N; C; Hx; Wx] /\
    shape dw = [F; C; kh; kw] /\
    shape dbias = [F; 1].
Proof.
  intros HW Hw HX Hxcs Hds Hin Hg Hact HF HC Hkh Hkw Hp Hs Hoh How.
  set (oh := out_extent Hx kh (padding l) (stride l)) in *.
  set (ow := out_extent Wx kw (padding l) (stride l)) in *.
  assert (Hpg : exists pg,
             match activation l with
             | Some a => tmul g (act_derivative a g)
             | None => inr g
             end = inr pg /\ shape pg = [N; F; oh; ow]).
  { destruct (activation l) as [a|].
    - destruct (tmul_same_shape g (act_derivative a g) Hact) as (c & Hc & Hcs).
      exists c. split; [exact Hc|]. now rewrite Hcs.
    - exists g. split; [reflexivity|exact Hg]. }
  destruct Hpg as (pg & Hpg & Hpgs).
  destruct (sum_axes_023 pg N F oh ow Hpgs) as (db0 & Hdb0 & Hdb0s).
  assert (Hdb1 : reshape db0 [F; -1] = inr (mk_ndarray [F; 1] (data db0))).
  { apply reshape_row; [exact HF|]. rewrite Hdb0s. simpl. lia. }
  destruct (transpose_1230 pg N F oh ow Hpgs) as (pt & Hpt & Hpts).
  assert (Hpr : reshape pt [F; -1]
                = inr (mk_ndarray [F; oh * ow * N] (data pt))).
  { apply reshape_row; [exact HF|]. rewrite Hpts. simpl. lia. }
  set (pr := mk_ndarray [F; oh * ow * N] (data pt)) in *.
  destruct (matmul_shape pr (T xc) F (oh * ow * N) (C * kh * kw))
    as (dW0 & HdW0 & HdW0s).
  { reflexivity. }
  { rewrite shape_T, Hxcs. simpl. f_equal. lia. }
  assert (HdW1 : reshape dW0 (shape w) = inr (mk_ndarray (shape w) (data dW0))).
  { apply reshape_exact.
    - rewrite Hw. simpl.
      repeat (apply andb_true_iff; split); try reflexivity; apply Z.leb_le; lia.
    - rewrite HdW0s, Hw. simpl. lia. }
  assert (HWr : reshape w [F; -1]
                = inr (mk_ndarray [F; C * kh * kw] (data w))).
  { apply reshape_row; [exact HF|]. rewrite Hw. simpl. lia. }
  destruct (matmul_shape (T pr) (mk_ndarray [F; C * kh * kw] (data w))
              (oh * ow * N) F (C * kh * kw) eq_refl eq_refl)
    as (dXc & HdXc & HdXcs).
  destruct (col2im_indices_shape dXc ds N C Hx Wx kh kw (padding l) (stride l)
              Hkh Hkw Hp Hs Hoh How) as (dX & HdX & HdXs).
  { rewrite HdXcs. fold oh ow. simpl. lia. }
  exists dX, (mk_ndarray (shape w) (data dW0)), (mk_ndarray [F; 1] (data db0)).
  split; [|split; [exact HdXs|split; [exact Hw|reflexivity]]].
  unfold backward.
  rewrite (bind_attr_of _ _ _ _ w) by exact HW.
  rewrite (bind_lift _ _ _ (F, C, kh, kw)) by (rewrite Hw; reflexivity).
  cbv beta iota.
  rewrite bind_attr.
  rewrite (bind_lift _ _ _ _ Hpg).
  rewrite (bind_lift _ _ _ _ Hdb0).
  rewrite (bind_lift _ _ _ _ Hdb1).
  rewrite bind_assign.
  rewrite (bind_lift _ _ _ _ Hpt).
  rewrite (bind_lift _ _ _ _ Hpr).
  rewrite (bind_attr_of _ _ _ _ xc) by exact HX.
  rewrite (bind_lift _ _ _ _ HdW0).
  rewrite (bind_lift _ _ _ _ HdW1).
  rewrite bind_assign.
  rewrite (bind_lift _ _ _ _ HWr).
  rewrite (bind_lift _ _ _ _ HdXc).
  rewrite bind_attr.
  rewrite (bind_attr_of _ _ _ _ ds) by exact Hds.
  rewrite !bind_attr.
  cbn [padding stride input_shape set_dW set_db].
  rewrite Hin.
  rewrite (bind_lift _ _ _ _ HdX).
  reflexivity.
Qed.

(** X11.  [backward] is not all-or-nothing.  On a layer with weights but
    without a cached patch matrix (connected, but never run forward), a
    gradient with four axes whose second axis is the filter count gets as
    far as the bias gradient: the call raises AttributeError, [db] has been
    replaced by an array of shape (filters, 1), and [dW] is as it was. *)
Theorem backward_not_atomic (l : Conv) (g w : ndarray A)
    (F C kh kw n oh ow : Z) :
  W l = Some w -> shape w = [F; C; kh; kw] -> 0 < F ->
  X_col l = None ->
  shape g = [n; F; oh; ow] ->
  match activation l with
  | Some a => shape (act_derivative a g) = shape g
  | None => True
  end ->
  outcome (backward g) l = inl AttributeError /\
  (exists dbias,
     db (state_after (backward g) l) = Some dbias /\ shape dbias = [F; 1]) /\
  dW (state_after (backward g) l) = dW l.
Proof.
  intros HW Hw HF HX Hg Hact.
  assert (Hpg : exists pg,
             match activation l with
             | Some a => tmul g (act_derivative a g)
             | None => inr g
             end = inr pg /\ shape pg = [n; F; oh; ow]).
  { destruct (activation l) as [a|].
    - destruct (tmul_same_shape g (act_derivative a g) Hact) as (c & Hc & Hcs).
      exists c. split; [exact Hc|]. now rewrite Hcs.
    - exists g. split; [reflexivity|exact Hg]. }
  destruct Hpg as (pg & Hpg & Hpgs).
  destruct (sum_axes_023 pg n F oh ow Hpgs) as (db0 & Hdb0 & Hdb0s).
  assert (Hdb1 : reshape db0 [F; -1] = inr (mk_ndarray [F; 1] (data db0))).
  { apply reshape_row; [exact HF|]. rewrite Hdb0s. simpl. lia. }
  destruct (transpose_1230 pg n F oh ow Hpgs) as (pt & Hpt & Hpts).
  assert (Hpr : reshape pt [F; -1]
                = inr (mk_ndarray [F; oh * ow * n] (data pt))).
  { apply reshape_row; [exact HF|]. rewrite Hpts. simpl. lia. }
  assert (Hrun : backward g l
                 = (set_db (Some (mk_ndarray [F; 1] (data db0))) l,
                    inl AttributeError)).
  { unfold backward.
    rewrite (bind_attr_of _ _ _ _ w) by exact HW.
    rewrite (bind_lift _ _ _ (F, C, kh, kw)) by (rewrite Hw; reflexivity).
    cbv beta iota.
    rewrite bind_attr.
    rewrite (bind_lift _ _ _ _ Hpg).
    rewrite (bind_lift _ _ _ _ Hdb0).
    rewrite (bind_lift _ _ _ _ Hdb1).
    rewrite bind_assign.
    rewrite (bind_lift _ _ _ _ Hpt).
    rewrite (bind_lift _ _ _ _ Hpr).
    now rewrite bind_attr_of_none by exact HX. }
  unfold outcome, state_after. rewrite Hrun. cbn [fst snd].
  split; [reflexivity|]. split; [|reflexivity].
  eexists. split; reflexivity.
Qed.

(** X12.  A first layer, constructed with its input shape and connected
    without predecessor: after a forward pass on an input of that shape, a
    [backward] call on a gradient of the output shape returns, and [grads]
    then reads a weight gradient of the shape of the weights,
    (filters, channels, kh, kw), and a bias gradient of shape (filters, 1),
    not the shape (filters,) of the bias. *)
Theorem grads_after_backward (l : Conv) (x g : ndarray A)
    (N C Hx Wx kh kw : Z) :
  input_shape l = Some [N; C; Hx; Wx] ->
  filter_extent (filter_size l) = inr (kh, kw) ->
  0 < nb_filter l -> 0 <= kh -> 0 <= kw ->
  0 < stride l -> 0 <= padding l ->
  0 <= N -> 0 <= C ->
  kh <= Hx + 2 * padding l -> kw <= Wx + 2 * padding l ->
  shape x = [N; C; Hx; Wx] ->
  shape g = [N; nb_filter l;
             out_extent Hx kh (padding l) (stride l);
             out_extent Wx kw (padding l) (stride l)] ->
  match activation l with
  | Some a => shape (act_derivative a g) = shape g
  | None => True
  end ->
  let pass := state_after (forward x) (state_after (connect_to None) l) in
  exists dX dw dbias bias,
    outcome (backward g) pass = inr dX /\
    grads (state_after (backward g) pass) = (Some dw, Some dbias) /\
    shape dw = [nb_filter l; C; kh; kw] /\
    shape dbias = [nb_filter l; 1] /\
    b (state_after (backward g) pass) = Some bias /\
    shape bias = [nb_filter l].
Proof.
  intros Hin Hfs HF Hkh Hkw Hs Hp HN HC Hfith Hfitw Hx0 Hg Hact pass.
  subst pass.
  assert (Hc := connect_to_ok l None N C Hx Wx kh kw Hin Hfs
                  ltac:(lia) ltac:(lia) HC Hkh Hkw).
  rewrite !out_extent_floor in Hc.
  unfold state_after, outcome. rewrite Hc. cbn [fst].
  pose proof (out_extent_pos Hx kh (padding l) (stride l) Hs Hfith) as Hoh.
  pose proof (out_extent_pos Wx kw (padding l) (stride l) Hs Hfitw) as How.
  match goal with
  | |- context [forward x ?s] => set (l1 := s)
  end.
  destruct (forward_ok l1 x
              (mk_ndarray [nb_filter l; C; kh; kw]
                 (init l [nb_filter l; C; kh; kw]))
              (zeros [nb_filter l])
              (nb_filter l) N C Hx Wx kh kw N (nb_filter l)
              eq_refl eq_refl eq_refl eq_refl eq_refl Hx0
              HF HN Hkh Hkw Hp Hs
              (Z.lt_le_incl _ _ Hoh) (Z.lt_le_incl _ _ How))
    as (y & xc & Hy & _ & Hxcs).
  rewrite Hy. cbn [fst].
  match goal with
  | |- context [backward g ?s] => set (l2 := s)
  end.
  destruct (backward_returns l2 g
              (mk_ndarray [nb_filter l; C; kh; kw]
                 (init l [nb_filter l; C; kh; kw]))
              xc (data_subjects x) (nb_filter l) N C Hx Wx kh kw
              eq_refl eq_refl eq_refl Hxcs eq_refl Hin Hg Hact
              HF HC Hkh Hkw Hp Hs
              (Z.lt_le_incl _ _ Hoh) (Z.lt_le_incl _ _ How))
    as (dX & dw & dbias & Hb & _ & Hdw & Hdb).
  exists dX, dw, dbias, (zeros [nb_filter l]).
  rewrite Hb. cbn [fst snd].
  repeat split; assumption.
Qed.

(** What a [backward] call that returns has gone through. *)
Lemma backward_inv (l l' : Conv) (g dX : ndarray A) :
  backward g l = (l', inr dX) ->
  exists (w xc pg db0 db1 pt pr dW0 dW1 Wr dXc : ndarray A) (ds : ndarray DS)
         (F C kh kw : Z),
    W l = Some w /\ shape w = [F; C; kh; kw] /\
    match activation l with
    | Some a => tmul g (act_derivative a g)
    | None => inr g
    end = inr pg /\
    sum_axes pg [0; 2; 3] = inr db0 /\
    reshape db0 [F; -1] = inr db1 /\
    transpose pg [1; 2; 3; 0] = inr pt /\
    reshape pt [F; -1] = inr pr /\
    X_col l = Some xc /\
    matmul pr (T xc) = inr dW0 /\
    reshape dW0 (shape w) = inr dW1 /\
    reshape w [F; -1] = inr Wr /\
    matmul (T pr) Wr = inr dXc /\
    ds_cached l = Some ds /\
    col2im_indices dXc (input_shape l) ds kh kw (padding l) (stride l) = inr dX /\
    l' = set_dW (Some dW1) (set_db (Some db1) l).
Proof.
  intros Hc. unfold backward in Hc.
  repeat returned_step Hc.
  injection Hc as <- <-.
  cbn [W activation X_col ds_cached input_shape padding stride set_db set_dW]
    in *.
  repeat match goal with
         | Hu : unpack4 _ = inr _ |- _ => apply unpack4_inr in Hu
         end.
  do 12 eexists. do 4 eexists.
  repeat split; try eassumption; reflexivity.
Qed.

End Behaviour.

(** ** A gradient of zeros *)

Lemma nth_map_zero {X : Type} (f : X -> Z) (l : list X) (k : nat) :
  (forall o, f o = 0) -> nth k (map f l) 0 = 0.
Proof.
  intros Hf. revert k.
  induction l as [|a l IH]; intros [|k]; simpl; auto.
Qed.

Lemma all_zero_tabulate (sh : list Z) (n : Z) (f : Z -> Z) :
  (forall o, f o = 0) -> all_zero (mk_ndarray sh (tabulate n f)).
Proof.
  intros Hf i. unfold item, tabulate. cbn [data].
  destruct (i <? 0); [reflexivity|].
  now apply nth_map_zero.
Qed.

Lemma total_map_zero {X : Type} (f : X -> Z) (l : list X) :
  (forall o, f o = 0) -> total (map f l) = 0.
Proof.
  intros Hf. unfold total. cbn [zero add Z_element].
  assert (Hacc : forall acc, fold_left Z.add (map f l) acc = acc).
  { induction l as [|a l IH]; intros acc; simpl; [reflexivity|].
    rewrite IH, Hf. lia. }
  apply Hacc.
Qed.

Lemma all_zero_same_data (a r : ndarray Z) :
  data r = data a -> all_zero a -> all_zero r.
Proof.
  intros Hd Ha i. specialize (Ha i). unfold item in *. now rewrite Hd.
Qed.

Lemma reshape_zero (a r : ndarray Z) (sh : list Z) :
  reshape a sh = inr r -> all_zero a -> all_zero r.
Proof.
  unfold reshape. destruct (fix_unknown_dimension _ _); simpl; [discriminate|].
  intros [= <-]. now apply all_zero_same_data.
Qed.

Lemma transpose_zero (a r : ndarray Z) (axes : list Z) :
  transpose a axes = inr r -> all_zero a -> all_zero r.
Proof.
  unfold transpose. destruct (_ && _); [|discriminate].
  intros [= <-] Ha. apply all_zero_tabulate. intros o. apply Ha.
Qed.

Lemma T_zero (a : ndarray Z) : all_zero a -> all_zero (T a).
Proof.
  intros Ha. unfold T. apply all_zero_tabulate. intros o. apply Ha.
Qed.

Lemma sum_axes_zero (a r : ndarray Z) (axes : list Z) :
  sum_axes a axes = inr r -> all_zero a -> all_zero r.
Proof.
  unfold sum_axes. destruct (axes_ok _ _); [|discriminate].
  intros [= <-] Ha. apply all_zero_tabulate. intros o.
  apply total_map_zero. exact Ha.
Qed.

Lemma tmul_zero (a c r : ndarray Z) :
  tmul a c = inr r -> all_zero a -> all_zero r.
Proof.
  unfold tmul, zip_with. destruct (broadcast_shapes _ _); simpl; [discriminate|].
  intros [= <-] Ha. apply all_zero_tabulate. intros o.
  cbn [mul Z_element]. now rewrite Ha.
Qed.

Lemma matmul_zero (a c r : ndarray Z) :
  matmul a c = inr r -> all_zero a -> all_zero r.
Proof.
  unfold matmul.
  destruct (shape a) as [|m [|k [|? ?]]]; try discriminate.
  destruct (shape c) as [|k' [|n [|? ?]]]; try discriminate.
  destruct (k =? k'); [|discriminate].
  intros [= <-] Ha. apply all_zero_tabulate. intros o.
  apply total_map_zero. intros t. cbn [mul Z_element]. now rewrite Ha.
Qed.

Lemma col2im_indices_zero (cols r : ndarray Z) (x_shape : option (list Z))
    (ds : ndarray unit) (kh kw padding stride : Z) :
  col2im_indices cols x_shape ds kh kw padding stride = inr r ->
  all_zero cols -> all_zero r.
Proof.
  unfold col2im_indices.
  destruct x_shape as [xs|]; [|discriminate].
  destruct (unpack4 xs) as [e|[[[N C] Hx] Wx]]; simpl; [discriminate|].
  destruct (stride =? 0); [discriminate|].
  destruct (bad_geometry _ _ _ _ _ _); [discriminate|].
  destruct (_ =? _); [|discriminate].
  intros [= <-] Hc. apply all_zero_tabulate. intros o.
  cbn [unravel with_subject Z_element].
  apply total_map_zero. intros kk. unfold patch_contribution.
  destruct (_ && _); [apply Hc|reflexivity].
Qed.

(** X13.  On integer tensors: when the incoming gradient is zero
    everywhere, whatever [backward] returns is zero everywhere, and so are
    the weight gradient and the bias gradient it leaves in [grads], for
    any weights, any cached pass and any activation. *)
Theorem backward_zero_gradient (l l' : Convolution Z unit) (g dX : ndarray Z) :
  all_zero g ->
  backward g l = (l', inr dX) ->
  all_zero dX /\
  exists dw dbias,
    grads l' = (Some dw, Some dbias) /\ all_zero dw /\ all_zero dbias.
Proof.
  intros Hg Hc.
  destruct (backward_inv l l' g dX Hc)
    as (w & xc & pg & db0 & db1 & pt & pr & dW0 & dW1 & Wr & dXc & ds
        & F & C & kh & kw
        & _ & _ & Hpg & Hdb0 & Hdb1 & Hpt & Hpr & _ & HdW0 & HdW1
        & _ & HdXc & _ & HdX & ->).
  assert (Zpg : all_zero pg).
  { destruct (activation l) as [a|].
    - exact (tmul_zero _ _ _ Hpg Hg).
    - now injection Hpg as <-. }
  pose proof (sum_axes_zero _ _ _ Hdb0 Zpg) as Zdb0.
  pose proof (reshape_zero _ _ _ Hdb1 Zdb0) as Zdb1.
  pose proof (transpose_zero _ _ _ Hpt Zpg) as Zpt.
  pose proof (reshape_zero _ _ _ Hpr Zpt) as Zpr.
  pose proof (matmul_zero _ _ _ HdW0 Zpr) as ZdW0.
  pose proof (reshape_zero _ _ _ HdW1 ZdW0) as ZdW1.
  pose proof (matmul_zero _ _ _ HdXc (T_zero _ Zpr)) as ZdXc.
  split.
  - exact (col2im_indices_zero _ _ _ _ _ _ _ _ HdX ZdXc).
  - exists dW1, db1. repeat split; assumption.
Qed.

(** ** Images of another size, and parameters written back *)

Section Sizes.
Context {A DS : Type} `{Element A DS}.

Local Abbreviation Conv := (Convolution A DS).

Lemma reshape_size_mismatch (a : ndarray A) (sh : list Z) :
  forallb (fun d => 0 <=? d) sh = true ->
  size (shape a) <> size sh ->
  reshape a sh = inl ValueError.
Proof.
  intros Hall Hne. unfold reshape, fix_unknown_dimension.
  destruct (filter_negative_none sh Hall) as [-> ->].
  destruct (Z.eqb_spec (size (shape a)) (size sh)); [contradiction|reflexivity].
Qed.

(** X14.  The image size is fixed when the layer is connected: on a
    non-empty batch of images with the right channel count whose output
    extents multiply to another number of positions than the ones stored at
    connect time, [forward] raises ValueError (at the reshape to the output
    layout). *)
Theorem forward_other_image_size (l : Conv) (prev : option Layer.t)
    (x : ndarray A) (N N' C Hx Wx Hx' Wx' kh kw : Z) :
  connect_source prev l = Some [N; C; Hx; Wx] ->
  filter_extent (filter_size l) = inr (kh, kw) ->
  0 < nb_filter l -> 0 <= kh -> 0 <= kw ->
  0 < stride l -> 0 <= padding l -> 0 <= C ->
  kh <= Hx + 2 * padding l -> kw <= Wx + 2 * padding l ->
  shape x = [N'; C; Hx'; Wx'] -> 0 < N' ->
  kh <= Hx' + 2 * padding l -> kw <= Wx' + 2 * padding l ->
  out_extent Hx' kh (padding l) (stride l)
    * out_extent Wx' kw (padding l) (stride l)
  <> out_extent Hx kh (padding l) (stride l)
       * out_extent Wx kw (padding l) (stride l) ->
  outcome (forward x) (state_after (connect_to prev) l) = inl ValueError.
Proof.
  intros Hsrc Hfs HF Hkh Hkw Hs Hp HC Hfith Hfitw Hx0 HN Hfith' Hfitw' Hne.
  assert (Hc := connect_to_ok l prev N C Hx Wx kh kw Hsrc Hfs
                  ltac:(lia) ltac:(lia) HC Hkh Hkw).
  rewrite !out_extent_floor in Hc.
  unfold state_after. rewrite Hc. cbn [fst].
  pose proof (out_extent_pos Hx kh (padding l) (stride l) Hs Hfith) as Hoh.
  pose proof (out_extent_pos Wx kw (padding l) (stride l) Hs Hfitw) as How.
  pose proof (out_extent_pos Hx' kh (padding l) (stride l) Hs Hfith') as Hoh'.
  pose proof (out_extent_pos Wx' kw (padding l) (stride l) Hs Hfitw') as How'.
  set (oh := out_extent Hx kh (padding l) (stride l)) in *.
  set (ow := out_extent Wx kw (padding l) (stride l)) in *.
  set (oh' := out_extent Hx' kh (padding l) (stride l)) in *.
  set (ow' := out_extent Wx' kw (padding l) (stride l)) in *.
  set (F := nb_filter l) in *.
  set (w := mk_ndarray [F; C; kh; kw] (init l [F; C; kh; kw])).
  destruct (im2col_indices_shape x N' C Hx' Wx' kh kw (padding l) (stride l)
              Hx0 Hkh Hkw Hp Hs (Z.lt_le_incl _ _ Hoh') (Z.lt_le_incl _ _ How'))
    as (xc & Hxc & Hxcs).
  fold oh' ow' in Hxcs.
  assert (HWcol : reshape w [F; -1] = inr (mk_ndarray [F; C * kh * kw] (data w))).
  { apply reshape_row; [exact HF|]. simpl. lia. }
  destruct (matmul_shape (T xc) (T (mk_ndarray [F; C * kh * kw] (data w)))
              (N' * oh' * ow') (C * kh * kw) F) as (o1 & Ho1 & Ho1s).
  { rewrite shape_T, Hxcs. reflexivity. }
  { reflexivity. }
  destruct (tadd_row o1 (zeros [F]) (N' * oh' * ow') F Ho1s eq_refl)
    as (o2 & Ho2 & Ho2s).
  assert (Ho3 : reshape o2 [F; oh; ow; N'] = inl ValueError).
  { apply reshape_size_mismatch.
    - simpl. repeat (apply andb_true_iff; split); try reflexivity;
        apply Z.leb_le; lia.
    - rewrite Ho2s. simpl. intros Heq. apply Hne.
      apply (Z.mul_reg_l _ _ (F * N')); [nia|]. lia. }
  unfold outcome, forward.
  rewrite bind_assign.
  rewrite (bind_attr_of _ _ _ _ w) by reflexivity.
  rewrite (bind_lift _ _ _ (F, C, kh, kw)) by reflexivity.
  cbv beta iota.
  rewrite (bind_lift _ _ _ (N', C, Hx', Wx')) by (rewrite Hx0; reflexivity).
  cbv beta iota.
  erewrite bind_attr_of by reflexivity.
  rewrite (bind_lift _ _ _ (N, F, oh, ow)) by reflexivity.
  cbv beta iota.
  rewrite bind_assign, !bind_attr.
  cbn [padding stride set_ds_cached set_last_input set_b set_W set_out_shape].
  rewrite (bind_lift _ _ _ xc) by exact Hxc.
  rewrite bind_assign.
  rewrite (bind_lift _ _ _ _ HWcol).
  rewrite (bind_lift _ _ _ _ Ho1).
  erewrite bind_attr_of by reflexivity.
  rewrite (bind_lift _ _ _ _ Ho2).
  rewrite (bind_lift_raise _ _ _ _ Ho3).
  reflexivity.
Qed.

(** X15.  Writing back what [params] reads changes nothing a pass can see:
    after assigning to [params] the pair just read from it, [params] reads
    the same pair, and [forward] and [backward] return or raise what they
    would have on the layer as it was. *)
Theorem params_write_back (l : Conv) (x g : ndarray A) :
  let l' := state_after (set_params [fst (params l); snd (params l)]) l in
  params l' = params l /\
  outcome (forward x) l' = outcome (forward x) l /\
  outcome (backward g) l' = outcome (backward g) l.
Proof.
  intros l'. subst l'. split; [reflexivity|]. split.
  - apply forward_outcome_ext; reflexivity.
  - apply backward_outcome_ext; reflexivity.
Qed.

End Sizes.

(** ** The further statements at concrete layers *)

Lemma forward_caches_witness :
  ds_cached (state_after (forward x_positive) plain_layer)
    = Some (data_subjects x_positive) /\
  exists (w xc : ndarray Z) (F C kh kw : Z),
    W plain_layer = Some w /\ shape w = [F; C; kh; kw] /\
    im2col_indices x_positive kh kw (padding plain_layer) (stride plain_layer)
      = inr xc /\
    X_col (state_after (forward x_positive) plain_layer) = Some xc.
Proof.
  apply (proj2 (forward_caches plain_layer x_positive)
           (mk_ndarray [1; 1; 1; 1] [10])).
  reflexivity.
Defined.

Lemma forward_any_batch_witness :
  exists y,
    outcome (forward x_batch) plain_layer = inr y /\
    shape y = [3; 1; 1; 1].
Proof.
  apply (forward_any_batch new_plain_layer None x_batch 1 3 1 2 2 2 2);
    first [reflexivity | cbn; lia].
Defined.

Lemma connect_to_filter_size_errors_witness :
  connect_to None odd_filter_layer
    = (odd_filter_layer, inl NotImplementedError) /\
  connect_to None cubic_filter_layer
    = (cubic_filter_layer, inl ValueError).
Proof.
  split.
  - apply (proj1 (connect_to_filter_size_errors odd_filter_layer None
                    [1; 1; 2; 2] eq_refl eq_refl)).
    reflexivity.
  - apply (proj2 (connect_to_filter_size_errors cubic_filter_layer None
                    [1; 1; 2; 2] eq_refl eq_refl) [2; 2; 2]).
    + reflexivity.
    + unfold zlength. simpl. lia.
Defined.

Lemma connect_to_zero_stride_witness :
  connect_to None still_layer = (still_layer, inl ZeroDivisionError).
Proof.
  apply (connect_to_zero_stride still_layer None [1; 1; 2; 2] 2 2);
    reflexivity.
Defined.

Lemma connect_to_unconnected_predecessor_witness :
  connect_to (Some loose_predecessor) new_plain_layer
    = (new_plain_layer, inl TypeError).
Proof.
  apply (connect_to_unconnected_predecessor new_plain_layer loose_predecessor).
  reflexivity.
Defined.

Lemma set_params_unvalidated_witness :
  outcome (forward x_positive)
    (state_after (set_params [Some x_flat; None]) plain_layer)
    = inl ValueError /\
  outcome (backward x_positive)
    (state_after (set_params [Some x_flat; None]) plain_layer)
    = inl ValueError.
Proof.
  apply (proj1 (set_params_unvalidated plain_layer None x_positive) x_flat).
  unfold zlength. simpl. lia.
Defined.

Lemma backward_not_atomic_witness :
  outcome (backward g_negative) plain_layer = inl AttributeError /\
  (exists dbias,
     db (state_after (backward g_negative) plain_layer) = Some dbias /\
     shape dbias = [1; 1]) /\
  dW (state_after (backward g_negative) plain_layer) = dW plain_layer.
Proof.
  apply (backward_not_atomic plain_layer g_negative
           (mk_ndarray [1; 1; 2; 2] [1; 1; 1; 1]) 1 1 2 2 1 1 1);
    first [reflexivity | lia | exact I].
Defined.

Lemma grads_after_backward_witness :
  exists dX dw dbias bias,
    outcome (backward g_negative)
      (state_after (forward x_positive) relu_layer) = inr dX /\
    grads (state_after (backward g_negative)
             (state_after (forward x_positive) relu_layer))
      = (Some dw, Some dbias) /\
    shape dw = [1; 1; 2; 2] /\
    shape dbias = [1; 1] /\
    b (state_after (backward g_negative)
         (state_after (forward x_positive) relu_layer)) = Some bias /\
    shape bias = [1].
Proof.
  apply (grads_after_backward new_relu_layer x_positive g_negative 1 1 2 2 2 2);
    first [reflexivity | cbn; lia].
Defined.

Lemma backward_shape_first_layer_witness :
  exists dX,
    outcome (backward g_negative)
      (state_after (forward x_positive) relu_layer) = inr dX /\
    shape dX = [1; 1; 2; 2].
Proof.
  apply (backward_shape_first_layer new_relu_layer x_positive g_negative
           1 1 2 2 2 2);
    first [reflexivity | cbn; lia].
Defined.

Lemma g_zero_all_zero : all_zero g_zero.
Proof.
  intros i. unfold item. destruct (i <? 0); [reflexivity|].
  destruct (Z.to_nat i) as [|[|k]]; reflexivity.
Defined.

Lemma backward_zero_gradient_witness :
  all_zero (mk_ndarray [1; 1; 2; 2] [0; 0; 0; 0]) /\
  exists dw dbias,
    grads (state_after (backward g_zero)
             (state_after (forward x_positive) relu_layer))
      = (Some dw, Some dbias) /\
    all_zero dw /\ all_zero dbias.
Proof.
  apply (backward_zero_gradient
           (state_after (forward x_positive) relu_layer)
           (state_after (backward g_zero)
              (state_after (forward x_positive) relu_layer))
           g_zero (mk_ndarray [1; 1; 2; 2] [0; 0; 0; 0])
           g_zero_all_zero).
  reflexivity.
Defined.

Lemma forward_other_image_size_witness :
  outcome (forward x_wide) plain_layer = inl ValueError.
Proof.
  apply (forward_other_image_size new_plain_layer None x_wide
           1 1 1 2 2 3 3 2 2);
    first [reflexivity | cbn; lia | vm_compute; intro; discriminate].
Defined.

Lemma forward_stores_activation_witness :
  last_output (state_after (forward x_negative) relu_layer)
    = Some (act_forward relu (mk_ndarray [1; 1; 1; 1] [-5])).
Proof.
  apply (forward_stores_activation x_negative relu_layer
           (state_after (forward x_negative) relu_layer)
           (mk_ndarray [1; 1; 1; 1] [-5])).
  reflexivity.
Defined.
